(** * GSA fraud detection: the anomaly join and aggregation routines

    A shallow embedding of [research_visualizations.py] and
    [visualization_code.py].  Both files are sequences of pandas, numpy and
    seaborn calls on two data frames, [merged_df] (the transactions) and
    [anomaly_df] (the detector's scores).  The library calls are modelled in
    [Pandas] and [Seaborn] after their documented behaviour; the two source
    files are [ResearchVisualizations] and [VisualizationCode], written call
    by call over those models.  A function returns the data it hands to the
    plotting calls; the drawing itself (the style sheet, figures, axes,
    labels, colours, the image files) is left out, and a plotting call is
    taken to return.  In the source it need not: matplotlib and seaborn
    raise on some data and in some versions.  What is proved of a function
    here is therefore proved of its data steps: which rows it selects, what
    it writes to the caller's frames and to standard output, and what the
    plotting calls are handed when they are reached.

    Numbers: pandas holds the numeric columns as float64.  They are modelled
    as exact rationals ([Q]), a missing value (NaN) as [None]; rounding and
    overflow are left out.  A correlation coefficient needs a square root
    and lives in [R]. *)

From Stdlib Require Import List ZArith QArith Qreals Reals String Ascii Bool.
From Stdlib Require Import Lia Lra Lqa Permutation Sorted.
Import ListNotations.

Local Open Scope Z_scope.

(** ** Exceptions and results *)

(** The exceptions the code can raise, and the two error kinds the
    specification names for which the code has no counterpart. *)
Inductive exn : Type :=
| IndexError          (* iloc: positional indexers are out-of-bounds *)
| ZeroDivisionError   (* int / int with a zero divisor *)
| DateParseError      (* to_datetime on text that is no date *)
| LengthMismatch      (* named by the specification only *)
| EmptyGroup.         (* named by the specification only *)

Inductive result (A : Type) : Type :=
| Ok (a : A)
| Raise (e : exn).

Arguments Ok {A} a.
Arguments Raise {A} e.

Definition bind_result {A B} (r : result A) (k : A -> result B) : result B :=
  match r with
  | Ok a => k a
  | Raise e => Raise e
  end.

Definition raises {A} (r : result A) : bool :=
  match r with
  | Ok _ => false
  | Raise _ => true
  end.

(** ** The pandas operations the two files call *)

Module Pandas.

(** An index label.  The frames of this pipeline are read from files and
    filtered, so their labels are integers. *)
Definition label := Z.

(** A frame is its rows in order, each under its index label; a series is
    one column of it. *)
Definition DataFrame (Row : Type) := list (label * Row).
Definition Series (V : Type) := list (label * V).

(** A float64 result: [NaN] or a number. *)
Definition NaN {X : Type} : option X := None.

(** [len(df)] *)
Definition len {Row} (df : DataFrame Row) : Z := Z.of_nat (List.length df).

(** [df.index] *)
Definition index {Row} (df : DataFrame Row) : list label := map fst df.

(** [df.values], the rows without their labels *)
Definition values {Row} (df : DataFrame Row) : list Row := map snd df.

(** [df[col]] *)
Definition column {Row V} (col : Row -> V) (df : DataFrame Row) : Series V :=
  map (fun lr => (fst lr, col (snd lr))) df.

(** [df[df[col] == v]]: the rows whose mask entry is true, labels kept. *)
Definition where_ {Row} (p : Row -> bool) (df : DataFrame Row) : DataFrame Row :=
  filter (fun lr => p (snd lr)) df.

(** [df.reset_index(drop=True)]: a new frame with labels 0, 1, ..., n-1. *)
Definition reset_index {Row} (df : DataFrame Row) : DataFrame Row :=
  combine (map Z.of_nat (seq 0 (List.length df))) (values df).

(** One positional access: [i] counts from the front when it is
    non-negative and from the back when it is negative; outside
    [-n .. n-1] there is no row. *)
Definition at_position {Row} (df : DataFrame Row) (i : Z) : option (label * Row) :=
  let n := len df in
  if (- n <=? i) && (i <? n)
  then nth_error df (Z.to_nat (if i <? 0 then i + n else i))
  else None.

(** [df.iloc[ix]] for a list of integers: the rows at those positions, in
    the order of [ix], under their own labels; any position out of bounds
    raises IndexError. *)
Fixpoint iloc {Row} (df : DataFrame Row) (ix : list Z) : result (DataFrame Row) :=
  match ix with
  | [] => Ok []
  | i :: ix' =>
      match at_position df i with
      | None => Raise IndexError
      | Some r =>
          match iloc df ix' with
          | Ok rs => Ok (r :: rs)
          | Raise e => Raise e
          end
      end
  end.

(** [s.dropna()] on the values of a series *)
Fixpoint dropna {V} (vs : list (option V)) : list V :=
  match vs with
  | [] => []
  | Some v :: vs' => v :: dropna vs'
  | None :: vs' => dropna vs'
  end.

(** [s.head(n)] *)
Definition head {A} (n : nat) (s : list A) : list A := firstn n s.

(** A stable sort into descending order: an element is put before the
    first one it is at least as large as, so equal elements stay in the order
    in which they came. *)
Fixpoint insert_desc {A} (geb : A -> A -> bool) (x : A) (l : list A) : list A :=
  match l with
  | [] => [x]
  | y :: l' => if geb x y then x :: l else y :: insert_desc geb x l'
  end.

Definition sort_desc {A} (geb : A -> A -> bool) (l : list A) : list A :=
  fold_right (insert_desc geb) [] l.

(** The order [nlargest] sorts a float column by: larger first, NaN last. *)
Definition key_geb (a b : option Q) : bool :=
  match a, b with
  | _, None => true
  | None, Some _ => false
  | Some x, Some y => Qle_bool y x
  end.

(** [df.nlargest(n, col)] with the default [keep='first']: the first [n]
    rows in descending order of the column, equal values in the order of the
    frame, rows whose value is missing last; nothing when [n <= 0]. *)
Definition nlargest {Row} (n : Z) (col : Row -> option Q) (df : DataFrame Row)
  : DataFrame Row :=
  if n <=? 0 then []
  else firstn (Z.to_nat n)
         (sort_desc (fun a b => key_geb (col (snd a)) (col (snd b))) df).

(** The hash table behind [value_counts]: one entry per distinct value, in
    the order of first occurrence. *)
Fixpoint bump (k : string) (t : list (string * nat)) : list (string * nat) :=
  match t with
  | [] => [(k, 1%nat)]
  | (k', c) :: t' =>
      if String.eqb k k' then (k', S c) :: t' else (k', c) :: bump k t'
  end.

Definition tally (ks : list string) : list (string * nat) :=
  fold_left (fun t k => bump k t) ks [].

Definition count_geb (a b : string * nat) : bool := (snd b <=? snd a)%nat.

(** [s.value_counts()] with its defaults [sort=True], [ascending=False],
    [dropna=True]: missing values are not counted; the counts are sorted
    largest first, equal counts staying in first-occurrence order. *)
Definition value_counts (s : Series (option string)) : list (string * nat) :=
  sort_desc count_geb (tally (dropna (values s))).

Definition Qsum (xs : list Q) : Q := fold_right Qplus (0 # 1)%Q xs.

(** [s.mean()] with the default [skipna=True]: the mean of the values that
    are present, NaN when there is none. *)
Definition mean (s : Series (option Q)) : option Q :=
  match dropna (values s) with
  | [] => NaN
  | xs => Some (Qsum xs / inject_Z (Z.of_nat (List.length xs)))%Q
  end.

(** The running sums of pandas' [nancorr] for one pair of columns. *)
Record corr_acc : Type := mk_corr_acc {
  nobs : Q;
  meanx : Q;
  meany : Q;
  ssqdx : Q;
  ssqdy : Q;
  covxy : Q
}.

Definition corr_acc0 : corr_acc :=
  mk_corr_acc (0 # 1) (0 # 1) (0 # 1) (0 # 1) (0 # 1) (0 # 1).

(** One row of the inner loop: a row counts for the pair only when both of
    its values are present. *)
Definition nancorr_step (a : corr_acc) (v : option Q * option Q) : corr_acc :=
  match v with
  | (Some vx, Some vy) =>
      let n := (nobs a + 1)%Q in
      let dx := (vx - meanx a)%Q in
      let dy := (vy - meany a)%Q in
      let mx := (meanx a + 1 / n * dx)%Q in
      let my := (meany a + 1 / n * dy)%Q in
      mk_corr_acc n mx my
        (ssqdx a + (vx - mx) * dx)%Q
        (ssqdy a + (vy - my) * dy)%Q
        (covxy a + (vx - mx) * dy)%Q
  | _ => a
  end.

Definition nancorr_sums (xs ys : list (option Q)) : corr_acc :=
  fold_left nancorr_step (combine xs ys) corr_acc0.

(** The coefficient of one pair: NaN with fewer than [min_periods = 1]
    complete rows or with a zero divisor [sqrt (ssqdx * ssqdy)] (the square
    root is zero exactly when the product is not positive).  The sums are
    exact here.  In float64 they round, and they overflow on amounts near
    the top of the range, where pandas returns NaN for a pair this
    definition gives a number; the value of a coefficient is the exact
    one, not the float64 one. *)
Definition nancorr_pair (xs ys : list (option Q)) : option R :=
  let a := nancorr_sums xs ys in
  if Qle_bool 1 (nobs a)
  then if Qle_bool (ssqdx a * ssqdy a) 0
       then NaN
       else Some (Q2R (covxy a) / sqrt (Q2R (ssqdx a * ssqdy a)))%R
  else NaN.

(** [nancorr] computes the pair [(xi, xj)] once for [xj <= xi] and stores it
    at [result[xi, xj]] and at [result[xj, xi]]. *)
Definition corr_entry (cols : list (list (option Q))) (i j : nat) : option R :=
  nancorr_pair (nth (Nat.max i j) cols []) (nth (Nat.min i j) cols []).

(** [df[cols].corr()] with the defaults [method='pearson'],
    [min_periods=1]. *)
Definition corr (cols : list (list (option Q))) : list (list (option R)) :=
  map (fun i => map (fun j => corr_entry cols i j) (seq 0 (List.length cols)))
      (seq 0 (List.length cols)).

(** A cell of a date column: text as read from a file, a parsed time stamp
    (nanoseconds since the epoch), or a missing date. *)
Inductive date_cell : Type :=
| DateText (s : string)
| Timestamp (ns : Z)
| NaT.

(** [pd.to_datetime(s)] over a text parser [parse]: text that parses becomes
    a time stamp, text that does not raises; time stamps and missing dates
    stay. *)
Definition to_datetime1 (parse : string -> option Z) (c : date_cell)
  : result date_cell :=
  match c with
  | DateText s =>
      match parse s with
      | Some ns => Ok (Timestamp ns)
      | None => Raise DateParseError
      end
  | Timestamp ns => Ok (Timestamp ns)
  | NaT => Ok NaT
  end.

Fixpoint to_datetime (parse : string -> option Z) (s : Series date_cell)
  : result (Series date_cell) :=
  match s with
  | [] => Ok []
  | (l, c) :: s' =>
      match to_datetime1 parse c with
      | Raise e => Raise e
      | Ok c' =>
          match to_datetime parse s' with
          | Ok r => Ok ((l, c') :: r)
          | Raise e => Raise e
          end
      end
  end.

End Pandas.

(** ** The seaborn call: a histogram of a date column *)

Module Seaborn.
Import Pandas.

Definition ns_per_day : Z := 86400000000000.

(** matplotlib's date number of a time stamp: days since the epoch. *)
Definition date2num (ns : Z) : Q := (inject_Z ns / inject_Z ns_per_day)%Q.

Definition Qminimum (x : Q) (xs : list Q) : Q :=
  fold_left (fun m y => if Qle_bool y m then y else m) xs x.

Definition Qmaximum (x : Q) (xs : list Q) : Q :=
  fold_left (fun m y => if Qle_bool m y then y else m) xs x.

(** numpy's outer bin edges: the least and the greatest value of the data
    that is binned, moved apart by one half each when they are equal. *)
Definition outer_edges (x : Q) (xs : list Q) : Q * Q :=
  let lo := Qminimum x xs in
  let hi := Qmaximum x xs in
  if Qeq_bool lo hi then (lo - (1 # 2), hi + (1 # 2))%Q else (lo, hi).

(** [np.linspace(lo, hi, bins + 1)[i]]; the last edge is [hi] itself. *)
Definition bin_edge (lo hi : Q) (bins i : nat) : Q :=
  if (i =? bins)%nat then hi
  else (lo + inject_Z (Z.of_nat i) * ((hi - lo) / inject_Z (Z.of_nat bins)))%Q.

(** Bin [i] is closed on the left and open on the right, the last bin is
    closed on both sides. *)
Definition in_bin (lo hi : Q) (bins i : nat) (x : Q) : bool :=
  Qle_bool (bin_edge lo hi bins i) x &&
  (if (S i =? bins)%nat
   then Qle_bool x (bin_edge lo hi bins (S i))
   else negb (Qle_bool (bin_edge lo hi bins (S i)) x)).

Definition bin_counts (lo hi : Q) (bins : nat) (xs : list Q) : list nat :=
  map (fun i => List.length (filter (in_bin lo hi bins i) xs)) (seq 0 bins).

(** [np.histogram(xs, bins)] for [bins >= 1] on data that is not empty. *)
Definition histogram (bins : nat) (xs : list Q) : list nat :=
  match xs with
  | [] => []
  | x :: xs' => let (lo, hi) := outer_edges x xs' in bin_counts lo hi bins xs
  end.

(** The time stamp of a datetime64 cell.  A text cell has none; no text
    cell reaches [histplot], the column is converted before. *)
Definition datetime64 (c : date_cell) : option Z :=
  match c with
  | Timestamp ns => Some ns
  | _ => None
  end.

(** [sns.histplot(data=s, bins=bins)] on a date series: the heights of the
    bars.  A series without rows draws no bar.  Missing dates are dropped;
    when every date of the series is missing, the bars are drawn at
    height 0. *)
Definition histplot (s : Series date_cell) (bins : nat) : list nat :=
  match s with
  | [] => []
  | _ :: _ =>
      match map date2num (dropna (map datetime64 (values s))) with
      | [] => repeat 0%nat bins
      | xs => histogram bins xs
      end
  end.

End Seaborn.

(** ** The two tables *)

Import Pandas.

(** A row of [merged_df], by the columns the code reads. *)
Record TransactionRecord : Type := mk_transaction {
  transaction_amount : option Q;
  merchant_name : option string;
  mcc_description : option string;
  mcc : option Q;
  merchant_zip : option Q;
  region : option string;
  transaction_date : date_cell
}.

(** A row of [anomaly_df]. *)
Record AnomalyResult : Type := mk_anomaly {
  ensemble_score : option Q;
  kmeans_score_norm : option Q;
  iso_score_norm : option Q;
  recon_error : option Q;
  is_anomaly : Z
}.

Definition with_transaction_date (r : TransactionRecord) (d : date_cell)
  : TransactionRecord :=
  mk_transaction (transaction_amount r) (merchant_name r) (mcc_description r)
    (mcc r) (merchant_zip r) (region r) d.

(** [df['transaction date'] = s] for a series [s] over the index of [df]. *)
Definition assign_transaction_date (df : DataFrame TransactionRecord)
  (s : Series date_cell) : DataFrame TransactionRecord :=
  map (fun p => (fst (fst p), with_transaction_date (snd (fst p)) (snd (snd p))))
      (combine df s).

(** What a [print] call writes. *)
Inductive line : Type :=
| Heading (s : string)
| TotalAnomalies (n : Z)
| PercentFlagged (p : Q)
| RegionCounts (l : list (string * nat))
| AverageAmount (group : Z) (m : option Q).

(** ** State: the two frames the caller passes in, and standard output

    Python passes the frames by reference, so an assignment to a column of
    [merged_df] inside a function is seen by the caller.  The functions are
    therefore state transformers over the caller's two frames. *)

Record store : Type := mk_store {
  merged_df : DataFrame TransactionRecord;
  anomaly_df : DataFrame AnomalyResult;
  stdout : list line
}.

Definition M (A : Type) : Type := store -> result A * store.

Definition ret {A} (a : A) : M A := fun s => (Ok a, s).

Definition bind {A B} (m : M A) (k : A -> M B) : M B :=
  fun s =>
    match m s with
    | (Ok a, s') => k a s'
    | (Raise e, s') => (Raise e, s')
    end.

Definition lift {A} (r : result A) : M A := fun s => (r, s).

Definition get_merged_df : M (DataFrame TransactionRecord) :=
  fun s => (Ok (merged_df s), s).

Definition get_anomaly_df : M (DataFrame AnomalyResult) :=
  fun s => (Ok (anomaly_df s), s).

Definition set_transaction_date (col : Series date_cell) : M unit :=
  fun s =>
    (Ok tt,
     mk_store (assign_transaction_date (merged_df s) col) (anomaly_df s)
       (stdout s)).

Definition print (l : line) : M unit :=
  fun s => (Ok tt, mk_store (merged_df s) (anomaly_df s) (stdout s ++ [l])).

Declare Scope py_scope.
Delimit Scope py_scope with py.
Notation "x <- c ;; k" := (bind c (fun x => k))
  (at level 61, c at next level, right associativity) : py_scope.
Notation "c ;;; k" := (bind c (fun _ => k))
  (at level 61, right associativity) : py_scope.

(** [merged.iloc[anomaly[anomaly['is_anomaly'] == v].index]], the
    expression every chart repeats: the index labels of the rows of
    [anomaly] with flag [v], used as positions in [merged]. *)
Definition rows_flagged (v : Z) (merged : DataFrame TransactionRecord)
  (anomaly : DataFrame AnomalyResult) : result (DataFrame TransactionRecord) :=
  iloc merged (index (where_ (fun a => is_anomaly a =? v) anomaly)).

(** [len(a) / len(b) * 100] on Python integers. *)
Definition percent (a b : Z) : result Q :=
  if b =? 0 then Raise ZeroDivisionError
  else Ok (inject_Z a / inject_Z b * inject_Z 100)%Q.

Definition numerical_features (df : DataFrame TransactionRecord)
  : list (list (option Q)) :=
  [ values (column transaction_amount df);
    values (column mcc df);
    values (column merchant_zip df) ].

(** ** Column assignment, for the box plots

    [plot_data['is_anomaly'] = s] aligns the series [s] with the frame on
    the index.  The box plot reads two columns of the result, the amount
    and the flag. *)

Record plot_row : Type := mk_plot_row {
  amount : option Q;
  flag : option Z
}.

(** The assignment succeeds, or raises ValueError: cannot reindex on an
    axis with duplicate labels. *)
Inductive assigned (A : Type) : Type :=
| Assigned (a : A)
| ValueError.

Arguments Assigned {A} a.
Arguments ValueError {A}.

Fixpoint labels_eqb (xs ys : list label) : bool :=
  match xs, ys with
  | [], [] => true
  | x :: xs', y :: ys' => (x =? y) && labels_eqb xs' ys'
  | _, _ => false
  end.

(** [index.is_unique] *)
Fixpoint is_unique (ls : list label) : bool :=
  match ls with
  | [] => true
  | l :: ls' => negb (existsb (Z.eqb l) ls') && is_unique ls'
  end.

(** The value of a series under a label. *)
Definition at_label {V} (l : label) (s : Series V) : option V :=
  option_map snd (find (fun lv => fst lv =? l) s).

(** [df['is_anomaly'] = s].  A frame without rows takes over the index of
    a series that has some, its other columns missing.  Otherwise, with
    equal indexes the values are taken in order; with different indexes the
    series is reindexed to the labels of the frame, a label it does not
    have giving a missing flag, which needs its labels to be unique. *)
Definition setitem_is_anomaly (df : DataFrame TransactionRecord) (s : Series Z)
  : assigned (DataFrame plot_row) :=
  match df, s with
  | [], _ :: _ =>
      Assigned (map (fun lv => (fst lv, mk_plot_row None (Some (snd lv)))) s)
  | _, _ =>
      if labels_eqb (index s) (index df)
      then Assigned
             (map (fun p => (fst (fst p),
                             mk_plot_row (transaction_amount (snd (fst p)))
                               (Some (snd (snd p)))))
                  (combine df s))
      else if is_unique (index s)
      then Assigned
             (map (fun lr => (fst lr,
                              mk_plot_row (transaction_amount (snd lr))
                                (at_label (fst lr) s)))
                  df)
      else ValueError
  end.

(** ** research_visualizations.py *)

Module ResearchVisualizations.

Local Open Scope py_scope.

(** The data of panels 5 and 6 of the overview figure.  Panels 1 to 4
    draw columns of the two frames as they are. *)
Record overview : Type := mk_overview {
  top_anomalies_sorted : DataFrame TransactionRecord;
  region_anomalies : list (string * nat)
}.

(** Lines 90, 91 and 103: the two selections of the flagged rows and what
    panels 5 and 6 are handed.  The plotting calls of the six panels are
    left out; the function returns here whenever the selections do. *)
Definition create_research_visualizations (threshold : Q) : M overview :=
  merged <- get_merged_df ;;
  anomaly <- get_anomaly_df ;;
  top_anomalies <- lift (rows_flagged 1 merged anomaly) ;;
  let sorted := nlargest 10 transaction_amount top_anomalies in
  flagged <- lift (rows_flagged 1 merged anomaly) ;;
  let regions := value_counts (column region flagged) in
  ret (mk_overview sorted regions).

Definition create_temporal_analysis (parse : string -> option Z)
  : M (list nat) :=
  merged <- get_merged_df ;;
  dates <- lift (to_datetime parse (column transaction_date merged)) ;;
  set_transaction_date dates ;;;
  merged <- get_merged_df ;;
  anomaly <- get_anomaly_df ;;
  flagged <- lift (rows_flagged 1 merged anomaly) ;;
  let anomaly_dates := column transaction_date flagged in
  ret (Seaborn.histplot anomaly_dates 30).

Definition create_mcc_analysis : M (list (string * nat)) :=
  merged <- get_merged_df ;;
  anomaly <- get_anomaly_df ;;
  flagged <- lift (rows_flagged 1 merged anomaly) ;;
  ret (head 10 (value_counts (column mcc_description flagged))).

Definition create_correlation_analysis : M (list (list (option R))) :=
  merged <- get_merged_df ;;
  ret (corr (numerical_features merged)).

Definition print_summary_statistics : M unit :=
  merged <- get_merged_df ;;
  anomaly <- get_anomaly_df ;;
  let merged_data := reset_index merged in
  let anomaly_data := reset_index anomaly in
  flagged <- lift (rows_flagged 1 merged_data anomaly_data) ;;
  let region_anomalies := value_counts (column region flagged) in
  print (Heading "Summary Statistics of Detected Anomalies:") ;;;
  let detected := len (where_ (fun a => is_anomaly a =? 1) anomaly_data) in
  print (TotalAnomalies detected) ;;;
  p <- lift (percent detected (len anomaly_data)) ;;
  print (PercentFlagged p) ;;;
  print (Heading "Top 5 regions with most anomalies:") ;;;
  print (RegionCounts (head 5 region_anomalies)) ;;;
  anomalies <- lift (rows_flagged 1 merged_data anomaly_data) ;;
  print (AverageAmount 1 (mean (column transaction_amount anomalies))) ;;;
  normal <- lift (rows_flagged 0 merged_data anomaly_data) ;;
  print (AverageAmount 0 (mean (column transaction_amount normal))).

(** Lines 169 to 173, the frame handed to the box plot: copies of the two
    frames with their indexes reset, the flags assigned as a new column.
    The call of [sns.boxplot] on that frame (line 176) and the calls after
    it are left out; seaborn can raise there, as on a frame without
    amounts. *)
Definition create_boxplot_analysis
  : store -> assigned (DataFrame plot_row) * store :=
  fun s =>
    let plot_data := reset_index (merged_df s) in
    let anomaly_data := reset_index (anomaly_df s) in
    (setitem_is_anomaly plot_data (column is_anomaly anomaly_data), s).

End ResearchVisualizations.

(** ** visualization_code.py *)

Module VisualizationCode.

Local Open Scope py_scope.

(** The data of the charts the one function of this file draws. *)
Record charts : Type := mk_charts {
  top_anomalies_sorted : DataFrame TransactionRecord;
  region_anomalies : list (string * nat);
  anomaly_dates_hist : list nat;
  mcc_anomalies : list (string * nat)
}.

(** The data steps of the function, in the order of the source: the
    selections, the date conversion and its write to the caller's frame,
    the report.  The call [plt.style.use('seaborn')] of line 22 and the
    plotting calls are left out; matplotlib from 3.8 on no longer knows
    that style and raises OSError at line 22, before any of the steps
    below. *)
Definition create_research_visualizations (parse : string -> option Z)
  (threshold : Q) : M charts :=
  merged <- get_merged_df ;;
  anomaly <- get_anomaly_df ;;
  top_anomalies <- lift (rows_flagged 1 merged anomaly) ;;
  let sorted := nlargest 10 transaction_amount top_anomalies in
  flagged <- lift (rows_flagged 1 merged anomaly) ;;
  let regions := value_counts (column region flagged) in
  (* time series of anomalies *)
  dates <- lift (to_datetime parse (column transaction_date merged)) ;;
  set_transaction_date dates ;;;
  merged <- get_merged_df ;;
  flagged <- lift (rows_flagged 1 merged anomaly) ;;
  let hist := Seaborn.histplot (column transaction_date flagged) 30 in
  (* merchant categories *)
  flagged <- lift (rows_flagged 1 merged anomaly) ;;
  let mccs := head 10 (value_counts (column mcc_description flagged)) in
  (* summary statistics *)
  print (Heading "Summary Statistics of Detected Anomalies:") ;;;
  let detected := len (where_ (fun a => is_anomaly a =? 1) anomaly) in
  print (TotalAnomalies detected) ;;;
  p <- lift (percent detected (len anomaly)) ;;
  print (PercentFlagged p) ;;;
  print (Heading "Top 5 regions with most anomalies:") ;;;
  print (RegionCounts (head 5 regions)) ;;;
  anomalies <- lift (rows_flagged 1 merged anomaly) ;;
  print (AverageAmount 1 (mean (column transaction_amount anomalies))) ;;;
  normal <- lift (rows_flagged 0 merged anomaly) ;;
  print (AverageAmount 0 (mean (column transaction_amount normal))) ;;;
  ret (mk_charts sorted regions hist mccs).

Definition create_heatmap_visualization : M (list (list (option R))) :=
  merged <- get_merged_df ;;
  ret (corr (numerical_features merged)).

(** Lines 171 and 172, the frame handed to the box plot: a copy of the
    transactions with the flags assigned as a new column, aligned on the
    index labels; [ValueError] is the assignment's.  The call of
    [sns.boxplot] on that frame (line 176) and the calls after it are left
    out; seaborn can raise there of its own. *)
Definition create_boxplot_analysis
  : store -> assigned (DataFrame plot_row) * store :=
  fun s =>
    let plot_data := merged_df s in
    (setitem_is_anomaly plot_data (column is_anomaly (anomaly_df s)), s).

End VisualizationCode.

(** ** A date parser for the worked examples

    [to_datetime] is modelled over any text parser.  The examples use ISO
    dates, [YYYY-MM-DD], read as midnight of that day. *)

Module IsoDate.

Definition digit (c : ascii) : option Z :=
  let n := Z.of_nat (nat_of_ascii c) in
  if (48 <=? n) && (n <=? 57) then Some (n - 48) else None.

Fixpoint number (acc : Z) (cs : list ascii) : option Z :=
  match cs with
  | [] => Some acc
  | c :: cs' =>
      match digit c with
      | Some d => number (10 * acc + d) cs'
      | None => None
      end
  end.

Definition leap (y : Z) : bool :=
  ((y mod 4 =? 0) && negb (y mod 100 =? 0)) || (y mod 400 =? 0).

Definition days_in_month (y m : Z) : Z :=
  if m =? 2 then (if leap y then 29 else 28)
  else if (m =? 4) || (m =? 6) || (m =? 9) || (m =? 11) then 30
  else 31.

(** Days from 1970-01-01 to the given day of the civil calendar. *)
Definition days_from_civil (y m d : Z) : Z :=
  let y' := if m <=? 2 then y - 1 else y in
  let era := y' / 400 in
  let yoe := y' - era * 400 in
  let mp := (m + 9) mod 12 in
  let doy := (153 * mp + 2) / 5 + d - 1 in
  let doe := yoe * 365 + yoe / 4 - yoe / 100 + doy in
  era * 146097 + doe - 719468.

Definition parse (s : string) : option Z :=
  match list_ascii_of_string s with
  | [y1; y2; y3; y4; "-"%char; m1; m2; "-"%char; d1; d2] =>
      match number 0 [y1; y2; y3; y4], number 0 [m1; m2], number 0 [d1; d2] with
      | Some y, Some m, Some d =>
          if (1 <=? m) && (m <=? 12) && (1 <=? d) && (d <=? days_in_month y m)
          then Some (days_from_civil y m d * Seaborn.ns_per_day)
          else None
      | _, _, _ => None
      end
  | _ => None
  end.

End IsoDate.

(** ** The operations as the specification words them

    These follow the specification's sentences, not the code; they are what
    the code is compared with. *)

Module Spec.

Definition flagged (a : AnomalyResult) : bool := is_anomaly a =? 1.

(** "the sub-sequence of rows of T at the ordinal positions where
    A[i].is_anomaly == 1, preserving T's row order" *)
Definition anomalous_rows (T : DataFrame TransactionRecord)
  (A : DataFrame AnomalyResult) : DataFrame TransactionRecord :=
  map fst (filter (fun ta => flagged (snd (snd ta))) (combine T A)).

(** "Fails with a LengthMismatch condition if len(T) != len(A)" *)
Definition select_anomalous (T : DataFrame TransactionRecord)
  (A : DataFrame AnomalyResult) : result (DataFrame TransactionRecord) :=
  if len T =? len A then Ok (anomalous_rows T A) else Raise LengthMismatch.

(** "Fails with EmptyGroup if either group is empty" *)
Definition grouped_mean (T : DataFrame TransactionRecord)
  (A : DataFrame AnomalyResult) : result (option Q * option Q) :=
  let anomalous := map fst (filter (fun ta => is_anomaly (snd (snd ta)) =? 1)
                              (combine T A)) in
  let normal := map fst (filter (fun ta => is_anomaly (snd (snd ta)) =? 0)
                           (combine T A)) in
  match anomalous, normal with
  | [], _ => Raise EmptyGroup
  | _, [] => Raise EmptyGroup
  | _, _ => Ok (mean (column transaction_amount anomalous),
                mean (column transaction_amount normal))
  end.

(** "equal-width time buckets spanning [min, max] of the full dataset's
    dates": the dates of the subset counted in bins laid over all dates. *)
Definition temporal_buckets (bins : nat) (all subset : list Q) : list nat :=
  match all with
  | [] => []
  | x :: xs =>
      let (lo, hi) := Seaborn.outer_edges x xs in
      Seaborn.bin_counts lo hi bins subset
  end.

End Spec.

(** ** Vocabulary of the statements *)

(** A frame with pandas' default index 0, 1, ..., n-1. *)
Definition frame {Row} (rows : list Row) : DataFrame Row :=
  combine (map Z.of_nat (seq 0 (List.length rows))) rows.

Definition default_index {Row} (df : DataFrame Row) : Prop :=
  index df = map Z.of_nat (seq 0 (List.length df)).

Definition sum_counts {K} (l : list (K * nat)) : nat :=
  fold_right (fun kc n => (snd kc + n)%nat) 0%nat l.

Definition total (l : list nat) : nat := fold_right Nat.add 0%nat l.

(** The distinct values of a list, each at its first occurrence. *)
Fixpoint first_occurrences (ks : list string) : list string :=
  match ks with
  | [] => []
  | k :: ks' => k :: filter (fun k' => negb (String.eqb k' k)) (first_occurrences ks')
  end.

Definition occurrences (k : string) (ks : list string) : nat :=
  List.length (filter (String.eqb k) ks).

Definition has_key (k : string) (ks : list string) : bool :=
  existsb (String.eqb k) ks.

(** The count a table of counts holds for the value [k]. *)
Definition count_of (k : string) (t : list (string * nat)) : nat :=
  sum_counts (filter (fun kc => String.eqb k (fst kc)) t).

(** The least and the greatest value of a list. *)
Definition least (m : Q) (xs : list Q) : Prop :=
  In m xs /\ Forall (fun y => (m <= y)%Q) xs.

Definition greatest (m : Q) (xs : list Q) : Prop :=
  In m xs /\ Forall (fun y => (y <= m)%Q) xs.

(** The bins laid over [xs] run from its least to its greatest value, or
    half a day to either side of it when all values are equal. *)
Definition spans (lo hi : Q) (xs : list Q) : Prop :=
  exists m M,
    least m xs /\ greatest M xs /\
    ((m < M /\ lo = m /\ hi = M)%Q \/
     (m == M /\ lo = m - (1 # 2) /\ hi = M + (1 # 2))%Q).

(** The number of bins among the first [k] that hold [x]. *)
Definition hits (lo hi : Q) (bins k : nat) (x : Q) : nat :=
  List.length (filter (fun i => Seaborn.in_bin lo hi bins i x) (seq 0 k)).

(** The rows in which both columns of a pair have a value. *)
Fixpoint complete_pairs (xs ys : list (option Q)) : list (Q * Q) :=
  match xs, ys with
  | Some x :: xs', Some y :: ys' => (x, y) :: complete_pairs xs' ys'
  | _ :: xs', _ :: ys' => complete_pairs xs' ys'
  | _, _ => []
  end.

Definition Qlen {A} (l : list A) : Q := inject_Z (Z.of_nat (List.length l)).

Definition average (vs : list Q) : Q := (Qsum vs / Qlen vs)%Q.

(** Sum of the squared deviations from the average. *)
Definition centered_squares (vs : list Q) : Q :=
  Qsum (map (fun v => (v - average vs) * (v - average vs))%Q vs).

(** Sum of the products of the deviations from the two averages. *)
Definition centered_products (ps : list (Q * Q)) : Q :=
  Qsum (map (fun p => (fst p - average (map fst ps)) *
                      (snd p - average (map snd ps)))%Q ps).

Definition all_equal (vs : list Q) : Prop :=
  forall a b, In a vs -> In b vs -> (a == b)%Q.

Definition varies (vs : list Q) : Prop :=
  exists a b, In a vs /\ In b vs /\ ~ (a == b)%Q.

(** Pearson's correlation coefficient of a list of observations, read off
    the textbook: the sum of products of deviations over the root of the
    product of the sums of squared deviations; undefined (NaN) without
    observations or with a zero denominator. *)
Definition pearson (ps : list (Q * Q)) : option R :=
  match ps with
  | [] => NaN
  | _ =>
      let sxx := centered_squares (map fst ps) in
      let syy := centered_squares (map snd ps) in
      if Qle_bool (sxx * syy) 0
      then NaN
      else Some (Q2R (centered_products ps) / sqrt (Q2R (sxx * syy)))%R
  end.

(** The running sums in terms of the raw moments of the observations. *)
Definition moments (a : corr_acc) (ps : list (Q * Q)) : Prop :=
  let N := Qlen ps in
  (nobs a == N /\
   N * meanx a == Qsum (map fst ps) /\
   N * meany a == Qsum (map snd ps) /\
   ssqdx a == Qsum (map (fun p => fst p * fst p) ps) - N * meanx a * meanx a /\
   ssqdy a == Qsum (map (fun p => snd p * snd p) ps) - N * meany a * meany a /\
   covxy a == Qsum (map (fun p => fst p * snd p) ps) - N * meanx a * meany a)%Q.

(** Entry [(i, j)] of a matrix of floats. *)
Definition entry (m : list (list (option R))) (i j : nat) : option R :=
  nth j (nth i m []) NaN.

(** Two keys of [nlargest] of the same rank. *)
Definition same_key (a b : option Q) : bool := key_geb a b && key_geb b a.

(** The time stamps of the dates of a frame, as matplotlib date numbers. *)
Definition date_numbers (df : DataFrame TransactionRecord) : list Q :=
  map Seaborn.date2num
    (dropna (map Seaborn.datetime64 (values (column transaction_date df)))).

(** The rows of [T] at the positions where the row of [A] has flag [v]. *)
Definition positional_rows (v : Z) (T : DataFrame TransactionRecord)
  (A : DataFrame AnomalyResult) : DataFrame TransactionRecord :=
  map fst (filter (fun ta => is_anomaly (snd (snd ta)) =? v) (combine T A)).

(** The index labels of the rows of [A] with flag [v]. *)
Definition flagged_labels (v : Z) (A : DataFrame AnomalyResult) : list label :=
  index (where_ (fun a => is_anomaly a =? v) A).

Definition in_bounds {Row} (df : DataFrame Row) (i : Z) : Prop :=
  - len df <= i < len df.

(** Two rows under one label that differ in the date at most. *)
Definition same_but_date (a b : label * TransactionRecord) : Prop :=
  fst a = fst b /\
  with_transaction_date (snd a) NaT = with_transaction_date (snd b) NaT.

(** Two results that agree up to a relation on what they return. *)
Definition agree {A} (R : A -> A -> Prop) (x y : result A) : Prop :=
  match x, y with
  | Ok a, Ok b => R a b
  | Raise e, Raise e' => e = e'
  | _, _ => False
  end.

(** A frame whose labels count up from [k]. *)
Definition frame_from {Row} (k : nat) (rows : list Row) : DataFrame Row :=
  combine (map Z.of_nat (seq k (List.length rows))) rows.

(** The amounts of the transactions, each with the flag of the score at the
    same position, or with no flag where the scores have run out. *)
Fixpoint pad_flags (ts : list TransactionRecord) (fs : list AnomalyResult)
  : list plot_row :=
  match ts with
  | [] => []
  | t :: ts' =>
      match fs with
      | [] => mk_plot_row (transaction_amount t) None :: pad_flags ts' []
      | f :: fs' =>
          mk_plot_row (transaction_amount t) (Some (is_anomaly f))
          :: pad_flags ts' fs'
      end
  end.

(** The rows the box plot of research_visualizations.py is drawn from. *)
Definition paired_by_position (ts : list TransactionRecord)
  (fs : list AnomalyResult) : list plot_row :=
  match ts with
  | [] => map (fun f => mk_plot_row None (Some (is_anomaly f))) fs
  | _ => pad_flags ts fs
  end.

(** ** Worked inputs *)

Module Examples.

Definition txn (amount : Z) (merchant where_ day : string) : TransactionRecord :=
  mk_transaction (Some (inject_Z amount)) (Some merchant) (Some "RETAIL"%string)
    (Some (inject_Z 5311)) (Some (inject_Z 20405)) (Some where_) (DateText day).

Definition score (flag : Z) : AnomalyResult :=
  mk_anomaly (Some (1 # 2)) (Some (1 # 2)) (Some (1 # 2)) (Some (1 # 2)) flag.

Definition start (T : DataFrame TransactionRecord) (A : DataFrame AnomalyResult)
  : store := mk_store T A [].

(** Amounts 10, 50, 30, 90; rows 1 and 3 flagged. *)
Definition t10 := txn 10 "ACME" "R1" "2023-01-01".
Definition t50 := txn 50 "BOLT" "R2" "2023-01-09".
Definition t30 := txn 30 "CORE" "R1" "2023-01-10".
Definition t90 := txn 90 "DYNE" "R2" "2023-01-11".

Definition T4 : DataFrame TransactionRecord := frame [t10; t50; t30; t90].
Definition A4 : DataFrame AnomalyResult :=
  frame [score 0; score 1; score 0; score 1].

(** Two rows; the anomaly table was sorted by score and kept its labels. *)
Definition T2 : DataFrame TransactionRecord := frame [t10; t50].
Definition A2_sorted : DataFrame AnomalyResult := [(1, score 1); (0, score 0)].

(** 100 transactions against 99 scores, default labels, every tenth score
    flagged. *)
Definition T100 : DataFrame TransactionRecord :=
  frame (map (fun i => txn (Z.of_nat i) "ACME" "R1" "2023-01-01") (seq 0 100)).
Definition A99 : DataFrame AnomalyResult :=
  frame (map (fun i => score (if (i mod 10 =? 0)%nat then 1 else 0)) (seq 0 99)).

(** Every row flagged. *)
Definition A4_all : DataFrame AnomalyResult :=
  frame [score 1; score 1; score 1; score 1].

(** A flagged row without a region. *)
Definition t_no_region : TransactionRecord :=
  mk_transaction (Some (inject_Z 70)) (Some "ECHO"%string) None
    (Some (inject_Z 5311)) (Some (inject_Z 20405)) None (DateText "2023-01-05").
Definition T2_gap : DataFrame TransactionRecord := frame [t50; t_no_region].
Definition A2_all : DataFrame AnomalyResult := frame [score 1; score 1].

(** One transaction. *)
Definition T1 : DataFrame TransactionRecord := frame [t10].

(** A date that is no date. *)
Definition t_bad_date : TransactionRecord := txn 20 "FLUX" "R3" "no date".
Definition T2_bad : DataFrame TransactionRecord := frame [t10; t_bad_date].

End Examples.

(** * Properties *)

(** ** Frames and positional selection *)

Section Frames.

Context {Row : Type}.

Lemma frame_length (rows : list Row) : List.length (frame rows) = List.length rows.
Proof.
  unfold frame. rewrite length_combine, length_map, length_seq.
  apply Nat.min_id.
Qed.

Lemma frame_values (rows : list Row) : values (frame rows) = rows.
Proof.
  unfold frame, values.
  generalize 0%nat. induction rows as [|r rows IH]; intros k; simpl.
  - reflexivity.
  - f_equal. apply IH.
Qed.

Lemma frame_index (rows : list Row) :
  index (frame rows) = map Z.of_nat (seq 0 (List.length rows)).
Proof.
  unfold frame, index.
  generalize 0%nat. induction rows as [|r rows IH]; intros k; simpl.
  - reflexivity.
  - f_equal. apply IH.
Qed.

Lemma frame_default_index (rows : list Row) : default_index (frame rows).
Proof.
  unfold default_index. rewrite frame_index, frame_length. reflexivity.
Qed.

Lemma values_length (df : DataFrame Row) : List.length (values df) = List.length df.
Proof. apply length_map. Qed.

Lemma reset_index_frame (df : DataFrame Row) : reset_index df = frame (values df).
Proof.
  unfold reset_index, frame. rewrite values_length. reflexivity.
Qed.

Lemma reset_index_default (df : DataFrame Row) : default_index (reset_index df).
Proof. rewrite reset_index_frame. apply frame_default_index. Qed.

Lemma reset_index_length (df : DataFrame Row) :
  List.length (reset_index df) = List.length df.
Proof. rewrite reset_index_frame, frame_length. apply values_length. Qed.

Lemma reset_index_values (df : DataFrame Row) : values (reset_index df) = values df.
Proof. rewrite reset_index_frame. apply frame_values. Qed.

(** The position just behind a prefix holds the next row. *)
Lemma at_position_middle (pre : DataFrame Row) r post :
  at_position (pre ++ r :: post) (Z.of_nat (List.length pre)) = Some r.
Proof.
  unfold at_position, len. rewrite length_app. cbn [List.length].
  assert (H1 : (- Z.of_nat (List.length pre + S (List.length post))
                <=? Z.of_nat (List.length pre)) = true) by (apply Z.leb_le; lia).
  assert (H2 : (Z.of_nat (List.length pre)
                <? Z.of_nat (List.length pre + S (List.length post))) = true)
    by (apply Z.ltb_lt; lia).
  assert (H3 : (Z.of_nat (List.length pre) <? 0) = false) by (apply Z.ltb_ge; lia).
  rewrite H1, H2, H3. cbn [andb]. rewrite Nat2Z.id.
  rewrite nth_error_app2 by lia. rewrite Nat.sub_diag. reflexivity.
Qed.

Lemma at_position_bounds (df : DataFrame Row) i :
  at_position df i <> None <-> - len df <= i < len df.
Proof.
  unfold at_position.
  destruct (Z.leb_spec (- len df) i) as [Hlo|Hlo];
    destruct (Z.ltb_spec i (len df)) as [Hhi|Hhi]; cbn [andb];
    try (split; [intros H; now elim H | lia]).
  split; [lia|]. intros _. apply nth_error_Some.
  unfold len in *. destruct (Z.ltb_spec i 0); lia.
Qed.

Lemma iloc_raises_IndexError (df : DataFrame Row) ix e :
  iloc df ix = Raise e -> e = IndexError.
Proof.
  induction ix as [|i ix IH]; simpl; [discriminate|].
  destruct (at_position df i); [|congruence].
  destruct (iloc df ix); [discriminate|].
  intros H. apply IH. congruence.
Qed.

Lemma iloc_in_bounds (df : DataFrame Row) ix :
  Forall (fun i => - len df <= i < len df) ix ->
  exists rows, iloc df ix = Ok rows /\ List.length rows = List.length ix.
Proof.
  induction 1 as [|i ix Hi _ IH]; simpl.
  - now exists [].
  - destruct (at_position df i) as [r|] eqn:E.
    + destruct IH as (rows & -> & Hlen). exists (r :: rows). simpl. now rewrite Hlen.
    + apply at_position_bounds in Hi. congruence.
Qed.

Lemma iloc_out_of_bounds (df : DataFrame Row) ix :
  Exists (fun i => ~ (- len df <= i < len df)) ix ->
  iloc df ix = Raise IndexError.
Proof.
  induction 1 as [i ix Hi | i ix _ IH]; simpl.
  - destruct (at_position df i) eqn:E; [|reflexivity].
    elim Hi. apply at_position_bounds. congruence.
  - destruct (at_position df i); [|reflexivity]. now rewrite IH.
Qed.

(** With the default index on the flag table, label and position agree:
    selecting by the labels of the flagged rows selects by position. *)
Lemma iloc_of_default_labels {Flag : Type} (p : Flag -> bool) (A : DataFrame Flag) :
  forall pre post : DataFrame Row,
    index A = map Z.of_nat (seq (List.length pre) (List.length A)) ->
    (List.length A <= List.length post)%nat ->
    iloc (pre ++ post) (index (where_ p A)) =
    Ok (map fst (filter (fun ta => p (snd (snd ta))) (combine post A))).
Proof.
  induction A as [|[l a] A IH]; intros pre post Hix Hlen.
  - destruct post; reflexivity.
  - destruct post as [|t post]; [simpl in Hlen; lia|].
    simpl in Hix, Hlen. injection Hix as Hl Hix.
    assert (Hstep : iloc (pre ++ t :: post) (index (where_ p A)) =
                    Ok (map fst (filter (fun ta => p (snd (snd ta))) (combine post A)))).
    { replace (pre ++ t :: post) with ((pre ++ [t]) ++ post)
        by (rewrite <- app_assoc; reflexivity).
      apply IH; [|lia].
      rewrite length_app. simpl. rewrite Nat.add_1_r. exact Hix. }
    unfold where_ in *. simpl. destruct (p a); simpl.
    + subst l. rewrite at_position_middle, Hstep. reflexivity.
    + exact Hstep.
Qed.

End Frames.

Lemma rows_flagged_default v (T : DataFrame TransactionRecord)
  (A : DataFrame AnomalyResult) :
  default_index A -> (List.length A <= List.length T)%nat ->
  rows_flagged v T A = Ok (positional_rows v T A).
Proof.
  intros Hix Hlen. unfold rows_flagged, positional_rows.
  apply (iloc_of_default_labels (fun a => is_anomaly a =? v) A [] T); assumption.
Qed.

(** The path of [print_summary_statistics], which resets both indexes
    first, selects by position whatever labels the tables carry. *)
Lemma rows_flagged_reset_index (T : DataFrame TransactionRecord)
  (A : DataFrame AnomalyResult) :
  List.length T = List.length A ->
  rows_flagged 1 (reset_index T) (reset_index A) =
  Ok (Spec.anomalous_rows (reset_index T) (reset_index A)).
Proof.
  intros Hlen. apply rows_flagged_default.
  - apply reset_index_default.
  - rewrite !reset_index_length. lia.
Qed.

Lemma in_bounds_dec {Row} (df : DataFrame Row) i :
  {in_bounds df i} + {~ in_bounds df i}.
Proof.
  unfold in_bounds.
  destruct (Z_le_dec (- len df) i); [|right; lia].
  destruct (Z_lt_dec i (len df)); [left; lia | right; lia].
Qed.

(** The selection raises exactly when a label of a flagged row is no
    position of the transaction table. *)
Lemma rows_flagged_IndexError v (T : DataFrame TransactionRecord)
  (A : DataFrame AnomalyResult) :
  rows_flagged v T A = Raise IndexError <->
  Exists (fun l => ~ in_bounds T l) (flagged_labels v A).
Proof.
  unfold rows_flagged, flagged_labels. split.
  - intros H.
    destruct (Forall_Exists_dec (in_bounds T) (in_bounds_dec T)
                (index (where_ (fun a => is_anomaly a =? v) A))) as [Hall|Hex].
    + apply iloc_in_bounds in Hall. destruct Hall as (rows & Hrows & _).
      congruence.
    + exact Hex.
  - apply iloc_out_of_bounds.
Qed.

(** C1, evaluated on the code: two transactions with amounts 10 and 50 and
    an anomaly table of the same length whose only flagged row is row 0
    but carries the index label 1.  The selection reads the label as a
    position and returns the transaction of amount 50; the row at the
    flagged position is the transaction of amount 10. *)
Theorem rows_flagged_reads_labels_as_positions :
  len Examples.T2 = len Examples.A2_sorted /\
  rows_flagged 1 Examples.T2 Examples.A2_sorted = Ok [(1, Examples.t50)] /\
  Spec.anomalous_rows Examples.T2 Examples.A2_sorted = [(0, Examples.t10)] /\
  fst (ResearchVisualizations.create_research_visualizations (1 # 2)
         (Examples.start Examples.T2 Examples.A2_sorted)) =
  Ok (ResearchVisualizations.mk_overview [(1, Examples.t50)] [("R2"%string, 1%nat)]).
Proof. repeat split. Qed.

(** C2 as stated fails: with 100 transactions and 99 scores the selection
    raises no LengthMismatch, it returns rows. *)
Lemma length_mismatch_is_not_raised :
  len Examples.T100 = 100 /\ len Examples.A99 = 99 /\
  rows_flagged 1 Examples.T100 Examples.A99 <> Raise LengthMismatch /\
  raises (rows_flagged 1 Examples.T100 Examples.A99) = false.
Proof.
  repeat split.
  vm_compute. discriminate.
Qed.

(** C2, amended: for tables of different lengths the selection makes no
    length check and never raises LengthMismatch.  It raises IndexError
    exactly when a flagged row of the anomaly table carries a label that is
    no position of the transaction table; otherwise it returns one row per
    flagged row.  With the default index on the anomaly table and fewer
    scores than transactions it returns the transactions at the flagged
    positions. *)
Theorem rows_flagged_has_no_length_check v (T : DataFrame TransactionRecord)
  (A : DataFrame AnomalyResult) :
  len T <> len A ->
  rows_flagged v T A <> Raise LengthMismatch /\
  (rows_flagged v T A = Raise IndexError <->
   Exists (fun l => ~ in_bounds T l) (flagged_labels v A)) /\
  (Forall (in_bounds T) (flagged_labels v A) ->
   exists rows, rows_flagged v T A = Ok rows /\
                List.length rows = List.length (flagged_labels v A)) /\
  (default_index A -> len A < len T ->
   rows_flagged v T A = Ok (positional_rows v T A)).
Proof.
  intros _. repeat split.
  - intros H. apply iloc_raises_IndexError in H. discriminate.
  - apply rows_flagged_IndexError.
  - apply rows_flagged_IndexError.
  - apply iloc_in_bounds.
  - intros Hix Hlen. apply rows_flagged_default; [exact Hix|].
    unfold len in Hlen. lia.
Qed.

Lemma rows_flagged_has_no_length_check_witness :
  len Examples.T100 <> len Examples.A99 /\
  rows_flagged 1 Examples.T100 Examples.A99 =
  Ok (positional_rows 1 Examples.T100 Examples.A99).
Proof.
  assert (H : len Examples.T100 <> len Examples.A99) by (vm_compute; discriminate).
  split; [exact H|].
  apply (rows_flagged_has_no_length_check 1 Examples.T100 Examples.A99 H).
  - apply frame_default_index.
  - vm_compute. reflexivity.
Defined.

(** ** The functions as state transformers *)

Ltac unfold_py :=
  unfold bind, lift, ret, get_merged_df, get_anomaly_df, print,
    set_transaction_date.

(** Splits on every call that can raise and keeps what it returned. *)
Ltac split_calls :=
  repeat match goal with
         | |- context [match ?r with Ok _ => _ | Raise _ => _ end] =>
             let E := fresh "E" in destruct r eqn:E; cbn [fst snd]
         end.

Lemma percent_raises a b : percent a b = Raise ZeroDivisionError <-> b = 0.
Proof.
  unfold percent. destruct (Z.eqb_spec b 0); split; congruence.
Qed.

Lemma percent_exn a b e : percent a b = Raise e -> e = ZeroDivisionError.
Proof.
  unfold percent. destruct (b =? 0); congruence.
Qed.

Lemma rows_flagged_exn v T A e : rows_flagged v T A = Raise e -> e = IndexError.
Proof. apply iloc_raises_IndexError. Qed.

Lemma to_datetime_exn parse s e : to_datetime parse s = Raise e -> e = DateParseError.
Proof.
  induction s as [|[l c] s IH]; simpl; [discriminate|].
  destruct c as [t| |]; simpl.
  - destruct (parse t); [|congruence].
    destruct (to_datetime parse s); [discriminate|]. intros H. apply IH. congruence.
  - destruct (to_datetime parse s); [discriminate|]. intros H. apply IH. congruence.
  - destruct (to_datetime parse s); [discriminate|]. intros H. apply IH. congruence.
Qed.

(** A run of [print_summary_statistics] in which no call raises. *)
Lemma print_summary_statistics_run s anomalies normal p :
  let T := reset_index (merged_df s) in
  let A := reset_index (anomaly_df s) in
  let detected := len (where_ (fun a => is_anomaly a =? 1) A) in
  rows_flagged 1 T A = Ok anomalies ->
  rows_flagged 0 T A = Ok normal ->
  percent detected (len A) = Ok p ->
  ResearchVisualizations.print_summary_statistics s =
  (Ok tt,
   mk_store (merged_df s) (anomaly_df s)
     (stdout s ++
      [ Heading "Summary Statistics of Detected Anomalies:";
        TotalAnomalies detected;
        PercentFlagged p;
        Heading "Top 5 regions with most anomalies:";
        RegionCounts (head 5 (value_counts (column region anomalies)));
        AverageAmount 1 (mean (column transaction_amount anomalies));
        AverageAmount 0 (mean (column transaction_amount normal)) ])).
Proof.
  intros T A detected H1 H0 Hp.
  unfold ResearchVisualizations.print_summary_statistics. unfold_py.
  fold T A. rewrite H1. cbn [merged_df anomaly_df stdout].
  fold detected. rewrite Hp. cbn [merged_df anomaly_df stdout].
  rewrite H0. cbn [merged_df anomaly_df stdout].
  repeat rewrite <- app_assoc. reflexivity.
Qed.

(** Whatever the input, the report raises nothing but IndexError and
    ZeroDivisionError, and leaves both frames as they were. *)
Lemma print_summary_statistics_exn s e :
  fst (ResearchVisualizations.print_summary_statistics s) = Raise e ->
  e = IndexError \/ e = ZeroDivisionError.
Proof.
  unfold ResearchVisualizations.print_summary_statistics. unfold_py.
  cbn [merged_df anomaly_df stdout]. split_calls; intros H;
    try discriminate; injection H as <-;
    repeat match goal with
           | E : rows_flagged _ _ _ = Raise _ |- _ => apply rows_flagged_exn in E
           | E : percent _ _ = Raise _ |- _ => apply percent_exn in E
           end; auto.
Qed.

Lemma print_summary_statistics_frame s :
  merged_df (snd (ResearchVisualizations.print_summary_statistics s)) = merged_df s /\
  anomaly_df (snd (ResearchVisualizations.print_summary_statistics s)) = anomaly_df s.
Proof.
  unfold ResearchVisualizations.print_summary_statistics. unfold_py.
  cbn [merged_df anomaly_df stdout]. split_calls; split; reflexivity.
Qed.

Lemma create_research_visualizations_frame threshold s :
  snd (ResearchVisualizations.create_research_visualizations threshold s) = s.
Proof.
  unfold ResearchVisualizations.create_research_visualizations. unfold_py.
  split_calls; reflexivity.
Qed.

Lemma create_mcc_analysis_frame s :
  snd (ResearchVisualizations.create_mcc_analysis s) = s.
Proof.
  unfold ResearchVisualizations.create_mcc_analysis. unfold_py.
  split_calls; reflexivity.
Qed.

Lemma create_correlation_analysis_frame s :
  snd (ResearchVisualizations.create_correlation_analysis s) = s.
Proof. reflexivity. Qed.

(** [create_temporal_analysis] never writes the anomaly table, and writes
    the transaction table only after every date has been read. *)
Lemma create_temporal_analysis_frame parse s :
  anomaly_df (snd (ResearchVisualizations.create_temporal_analysis parse s)) =
  anomaly_df s /\
  (to_datetime parse (column transaction_date (merged_df s)) = Raise DateParseError ->
   ResearchVisualizations.create_temporal_analysis parse s = (Raise DateParseError, s)).
Proof.
  unfold ResearchVisualizations.create_temporal_analysis. unfold_py.
  cbn [merged_df anomaly_df stdout]. split.
  - split_calls; reflexivity.
  - intros ->. reflexivity.
Qed.

Lemma percent_defined a b :
  b <> 0 -> percent a b = Ok (inject_Z a / inject_Z b * inject_Z 100)%Q.
Proof.
  intros Hb. unfold percent. destruct (Z.eqb_spec b 0); [contradiction|reflexivity].
Qed.

Lemma len_reset_index_zero {Row} (df : DataFrame Row) :
  len (reset_index df) = 0 <-> df = [].
Proof.
  unfold len. rewrite reset_index_length.
  destruct df; simpl; split; intros H; try reflexivity; try discriminate; lia.
Qed.

(** C10: the percentage of flagged rows is [detected / len(anomaly_data) *
    100] with no guard.  The division raises ZeroDivisionError exactly when
    the anomaly table is empty and has a value otherwise.  With an empty
    anomaly table the report reaches the division: it stops there with
    ZeroDivisionError, after the heading and the total of 0, and prints no
    percentage. *)
Theorem flagged_percentage_needs_rows s :
  let A := reset_index (anomaly_df s) in
  let detected := len (where_ (fun a => is_anomaly a =? 1) A) in
  (percent detected (len A) = Raise ZeroDivisionError <-> anomaly_df s = []) /\
  (anomaly_df s <> [] ->
   percent detected (len A) =
   Ok (inject_Z detected / inject_Z (len A) * inject_Z 100)%Q) /\
  (anomaly_df s = [] ->
   ResearchVisualizations.print_summary_statistics s =
   (Raise ZeroDivisionError,
    mk_store (merged_df s) (anomaly_df s)
      (stdout s ++ [ Heading "Summary Statistics of Detected Anomalies:";
                     TotalAnomalies 0 ]))).
Proof.
  intros A detected.
  pose proof (len_reset_index_zero (anomaly_df s)) as Hlen. fold A in Hlen.
  repeat split.
  - intros H. apply Hlen. apply (percent_raises detected). exact H.
  - intros H. apply percent_raises. apply Hlen. exact H.
  - intros Hne. apply percent_defined. intros H0. apply Hne, Hlen, H0.
  - intros Hnil.
    unfold ResearchVisualizations.print_summary_statistics. unfold_py.
    rewrite Hnil. cbn. rewrite <- app_assoc. reflexivity.
Qed.

(** The report at the end of [create_research_visualizations] in
    [visualization_code.py] divides in the same way. *)
Lemma create_research_visualizations_divides parse threshold s dates :
  anomaly_df s = [] ->
  to_datetime parse (column transaction_date (merged_df s)) = Ok dates ->
  fst (VisualizationCode.create_research_visualizations parse threshold s) =
  Raise ZeroDivisionError.
Proof.
  intros Hnil Hdates.
  unfold VisualizationCode.create_research_visualizations. unfold_py.
  rewrite Hnil. cbn. rewrite Hdates. reflexivity.
Qed.

Lemma flagged_percentage_needs_rows_witness :
  ResearchVisualizations.print_summary_statistics (Examples.start Examples.T4 []) =
  (Raise ZeroDivisionError,
   mk_store Examples.T4 []
     [ Heading "Summary Statistics of Detected Anomalies:"; TotalAnomalies 0 ]).
Proof.
  apply (flagged_percentage_needs_rows (Examples.start Examples.T4 [])).
  reflexivity.
Defined.

(** C3, evaluated on the code: [create_temporal_analysis] run on two
    transactions whose dates are text.  Afterwards the caller's transaction
    table holds time stamps in place of the text: the input was written.
    The function of [visualization_code.py] does the same.  The anomaly
    table is as before. *)
Theorem create_temporal_analysis_writes_merged_df :
  let s := Examples.start Examples.T2 Examples.A2_all in
  let s1 := snd (ResearchVisualizations.create_temporal_analysis IsoDate.parse s) in
  let s2 := snd (VisualizationCode.create_research_visualizations IsoDate.parse
                   (1 # 2) s) in
  values (column transaction_date (merged_df s)) =
    [DateText "2023-01-01"; DateText "2023-01-09"] /\
  values (column transaction_date (merged_df s1)) =
    [Timestamp 1672531200000000000; Timestamp 1673222400000000000] /\
  merged_df s1 <> merged_df s /\
  merged_df s2 = merged_df s1 /\
  anomaly_df s1 = anomaly_df s /\ anomaly_df s2 = anomaly_df s.
Proof.
  cbv zeta. repeat split.
  vm_compute. discriminate.
Qed.

(** Every date the conversion leaves behind is a time stamp or missing. *)
Lemma to_datetime_cells parse s r :
  to_datetime parse s = Ok r ->
  index r = index s /\
  Forall (fun c => match c with DateText _ => False | _ => True end) (values r).
Proof.
  revert r. induction s as [|[l c] s IH]; simpl; intros r H.
  - injection H as <-. split; [reflexivity | constructor].
  - destruct (to_datetime1 parse c) as [c'|] eqn:E1; [|discriminate].
    destruct (to_datetime parse s) as [r'|]; [|discriminate].
    injection H as <-. destruct (IH r' eq_refl) as [Hix Hall].
    split; [simpl; now rewrite Hix|].
    simpl. constructor; [|exact Hall].
    destruct c as [t| |]; simpl in E1.
    + destruct (parse t); [|discriminate]. now injection E1 as <-.
    + now injection E1 as <-.
    + now injection E1 as <-.
Qed.

(** ** Grouped means *)

Lemma mean_no_values (s : Series (option Q)) :
  mean s = NaN <-> dropna (values s) = [].
Proof.
  unfold mean, NaN. destruct (dropna (values s)); split; congruence.
Qed.

(** C4 as stated fails: with every row flagged, the mean of the normal
    group is not refused with EmptyGroup; the report completes and prints
    NaN for it. *)
Lemma empty_group_is_not_raised :
  let s := Examples.start Examples.T4 Examples.A4_all in
  Spec.grouped_mean Examples.T4 Examples.A4_all = Raise EmptyGroup /\
  fst (ResearchVisualizations.print_summary_statistics s) = Ok tt /\
  fst (ResearchVisualizations.print_summary_statistics s) <> Raise EmptyGroup /\
  last (stdout (snd (ResearchVisualizations.print_summary_statistics s)))
       (Heading EmptyString) = AverageAmount 0 NaN.
Proof.
  cbv zeta. repeat split.
  vm_compute. discriminate.
Qed.

(** C4, amended: the grouped mean raises no EmptyGroup error; whatever the
    input, the report raises nothing but IndexError and ZeroDivisionError.
    For each group it prints the mean of the amounts present in the rows of
    the group, and NaN for a group without rows: on an anomaly table that
    is not empty and has at most as many rows as the transaction table the
    report completes, and its last two lines are the mean of the anomalous
    and of the normal group. *)
Theorem grouped_mean_of_empty_group_is_NaN s :
  let T := reset_index (merged_df s) in
  let A := reset_index (anomaly_df s) in
  let anomalous := positional_rows 1 T A in
  let normal := positional_rows 0 T A in
  let run := ResearchVisualizations.print_summary_statistics s in
  (forall e, fst run = Raise e -> e = IndexError \/ e = ZeroDivisionError) /\
  (anomaly_df s <> [] ->
   (List.length (anomaly_df s) <= List.length (merged_df s))%nat ->
   fst run = Ok tt /\
   (exists out,
      stdout (snd run) =
      stdout s ++ out ++
      [ AverageAmount 1 (mean (column transaction_amount anomalous));
        AverageAmount 0 (mean (column transaction_amount normal)) ]) /\
   (anomalous = [] -> mean (column transaction_amount anomalous) = NaN) /\
   (normal = [] -> mean (column transaction_amount normal) = NaN)).
Proof.
  intros T A anomalous normal run.
  split; [apply print_summary_statistics_exn|].
  intros Hne Hlen.
  assert (H1 : rows_flagged 1 T A = Ok anomalous).
  { apply rows_flagged_default; [apply reset_index_default|].
    unfold T, A. rewrite !reset_index_length. exact Hlen. }
  assert (H0 : rows_flagged 0 T A = Ok normal).
  { apply rows_flagged_default; [apply reset_index_default|].
    unfold T, A. rewrite !reset_index_length. exact Hlen. }
  assert (Hp : percent (len (where_ (fun a => is_anomaly a =? 1) A)) (len A) =
               Ok (inject_Z (len (where_ (fun a => is_anomaly a =? 1) A)) /
                   inject_Z (len A) * inject_Z 100)%Q).
  { apply percent_defined. intros Hz. apply Hne.
    now apply (len_reset_index_zero (anomaly_df s)). }
  pose proof (print_summary_statistics_run s anomalous normal _ H1 H0 Hp) as Hrun.
  fold run in Hrun. rewrite Hrun. cbn [fst snd stdout].
  repeat split.
  - eexists [_; _; _; _; _]. reflexivity.
  - intros ->. reflexivity.
  - intros ->. reflexivity.
Qed.

Lemma grouped_mean_of_empty_group_is_NaN_witness :
  fst (ResearchVisualizations.print_summary_statistics
         (Examples.start Examples.T4 Examples.A4_all)) = Ok tt /\
  mean (column transaction_amount
          (positional_rows 0 (reset_index Examples.T4) (reset_index Examples.A4_all))) =
  NaN.
Proof.
  destruct (grouped_mean_of_empty_group_is_NaN
              (Examples.start Examples.T4 Examples.A4_all)) as [_ H].
  destruct H as (Hok & _ & _ & Hnan).
  - discriminate.
  - simpl. lia.
  - split; [exact Hok | apply Hnan; reflexivity].
Defined.

(** ** The stable descending sort *)

Lemma in_firstn {A} (x : A) n l : In x (firstn n l) -> In x l.
Proof.
  intros H. rewrite <- (firstn_skipn n l). apply in_or_app. now left.
Qed.

Section SortDesc.

Context {A : Type} (geb : A -> A -> bool).

Let ge (a b : A) : Prop := geb a b = true.
Let same (a b : A) : bool := geb a b && geb b a.

Hypothesis geb_total : forall a b, geb a b = true \/ geb b a = true.
Hypothesis geb_trans : forall a b c, geb a b = true -> geb b c = true -> geb a c = true.

Lemma insert_desc_perm x l : Permutation (insert_desc geb x l) (x :: l).
Proof.
  induction l as [|y l IH]; simpl.
  - reflexivity.
  - destruct (geb x y).
    + reflexivity.
    + rewrite IH. apply perm_swap.
Qed.

Lemma sort_desc_perm l : Permutation (sort_desc geb l) l.
Proof.
  induction l as [|x l IH]; simpl.
  - reflexivity.
  - rewrite insert_desc_perm. now apply perm_skip.
Qed.

Lemma sort_desc_length l : List.length (sort_desc geb l) = List.length l.
Proof. apply Permutation_length, sort_desc_perm. Qed.

Lemma insert_desc_sorted x l :
  StronglySorted ge l -> StronglySorted ge (insert_desc geb x l).
Proof.
  induction 1 as [|y l Hl IH Hy]; simpl.
  - repeat constructor.
  - destruct (geb x y) eqn:E.
    + constructor; [constructor; assumption|].
      constructor; [exact E|].
      eapply Forall_impl; [|exact Hy]. intros b Hb. eapply geb_trans; eassumption.
    + constructor; [exact IH|].
      eapply Permutation_Forall; [symmetry; apply insert_desc_perm|].
      constructor; [|exact Hy].
      destruct (geb_total x y) as [H|H]; [congruence | exact H].
Qed.

Lemma sort_desc_sorted l : StronglySorted ge (sort_desc geb l).
Proof.
  induction l as [|x l IH]; simpl.
  - constructor.
  - now apply insert_desc_sorted.
Qed.

(** Sorting leaves a sorted list as it is. *)
Lemma sort_desc_of_sorted l : StronglySorted ge l -> sort_desc geb l = l.
Proof.
  induction 1 as [|x l Hl IH Hx]; simpl.
  - reflexivity.
  - rewrite IH. destruct l as [|y l]; simpl; [reflexivity|].
    inversion Hx as [|? ? Hxy _]; subst. unfold ge in Hxy. now rewrite Hxy.
Qed.

Lemma firstn_sorted n l : StronglySorted ge l -> StronglySorted ge (firstn n l).
Proof.
  intros H. revert n. induction H as [|x l Hl IH Hx]; intros [|n]; simpl;
    try constructor.
  - apply IH.
  - rewrite Forall_forall in *. intros b Hb. apply Hx.
    eapply in_firstn; eassumption.
Qed.

(** In a sorted list every element of a prefix is at least every element
    behind it. *)
Lemma sorted_prefix_dominates l1 l2 :
  StronglySorted ge (l1 ++ l2) ->
  forall a b, In a l1 -> In b l2 -> ge a b.
Proof.
  induction l1 as [|x l1 IH]; simpl; intros H a b Ha Hb; [contradiction|].
  inversion H as [|? ? Hs Hx]; subst.
  destruct Ha as [<-|Ha].
  - rewrite Forall_forall in Hx. apply Hx, in_or_app. now right.
  - now apply IH.
Qed.

(** Stability: the elements of one rank keep the order in which they came. *)
Lemma insert_desc_same v x l :
  filter (same v) (insert_desc geb x l) =
  if same v x then x :: filter (same v) l else filter (same v) l.
Proof.
  induction l as [|y l IH]; simpl.
  - reflexivity.
  - destruct (geb x y) eqn:Exy; simpl.
    + reflexivity.
    + rewrite IH. destruct (same v x) eqn:Ex; [|reflexivity].
      assert (Ey : same v y = false).
      { destruct (same v y) eqn:Ey; [|reflexivity].
        unfold same in Ex, Ey.
        apply andb_true_iff in Ex, Ey. destruct Ex as [_ Hxv], Ey as [Hvy _].
        rewrite (geb_trans _ _ _ Hxv Hvy) in Exy. discriminate. }
      rewrite Ey. reflexivity.
Qed.

Lemma sort_desc_stable v l :
  filter (same v) (sort_desc geb l) = filter (same v) l.
Proof.
  induction l as [|x l IH]; simpl.
  - reflexivity.
  - rewrite insert_desc_same, IH. reflexivity.
Qed.

End SortDesc.

Lemma filter_firstn_prefix {A} (p : A -> bool) n l :
  filter p l = filter p (firstn n l) ++ filter p (skipn n l).
Proof. rewrite <- filter_app, firstn_skipn. reflexivity. Qed.

(** The order of [nlargest] is total and transitive. *)
Lemma key_geb_total a b : key_geb a b = true \/ key_geb b a = true.
Proof.
  destruct a as [x|], b as [y|]; simpl; auto.
  destruct (Qlt_le_dec x y) as [H|H].
  - right. apply Qle_bool_iff. now apply Qlt_le_weak.
  - left. now apply Qle_bool_iff.
Qed.

Lemma key_geb_trans a b c :
  key_geb a b = true -> key_geb b c = true -> key_geb a c = true.
Proof.
  destruct a as [x|], b as [y|], c as [z|]; simpl; try congruence.
  rewrite !Qle_bool_iff. intros H1 H2. eapply Qle_trans; eassumption.
Qed.

Lemma count_geb_total a b : count_geb a b = true \/ count_geb b a = true.
Proof.
  unfold count_geb. destruct (Nat.leb_spec (snd b) (snd a)); [now left|].
  right. apply Nat.leb_le. lia.
Qed.

Lemma count_geb_trans a b c :
  count_geb a b = true -> count_geb b c = true -> count_geb a c = true.
Proof. unfold count_geb. rewrite !Nat.leb_le. lia. Qed.

(** ** Top-K *)

Section TopK.

Context {Row : Type} (col : Row -> option Q).

Let row_geb (a b : label * Row) : bool := key_geb (col (snd a)) (col (snd b)).

Lemma row_geb_total a b : row_geb a b = true \/ row_geb b a = true.
Proof. apply key_geb_total. Qed.

Lemma row_geb_trans a b c :
  row_geb a b = true -> row_geb b c = true -> row_geb a c = true.
Proof. apply key_geb_trans. Qed.

Lemma nlargest_firstn (K : nat) (df : DataFrame Row) :
  nlargest (Z.of_nat K) col df = firstn K (sort_desc row_geb df).
Proof.
  unfold nlargest. destruct K as [|k].
  - reflexivity.
  - destruct (Z.leb_spec (Z.of_nat (S k)) 0) as [H|_]; [lia|].
    rewrite Nat2Z.id. reflexivity.
Qed.

Lemma nlargest_sorted n (df : DataFrame Row) :
  StronglySorted (fun a b => row_geb a b = true) (nlargest n col df).
Proof.
  unfold nlargest. destruct (n <=? 0); [constructor|].
  apply firstn_sorted, sort_desc_sorted.
  - apply row_geb_total.
  - apply row_geb_trans.
Qed.

End TopK.

(** C6: for every frame, numeric column and K >= 0, [nlargest] returns
    min(K, size) rows; they are rows of the frame, and every row left out
    is no larger than any row returned; they are in descending order; rows
    of equal value come in the order of the frame (those of one value that
    are returned are the first of that value in the frame); and when K is at
    least the size, all rows are returned.  For amounts 10, 50, 30, 90 with
    rows 1 and 3 flagged, the anomalous rows are those of amounts 50 and 90
    and the top 1 of them is the row of amount 90. *)
Theorem nlargest_returns_the_largest_rows {Row : Type} (col : Row -> option Q)
  (K : nat) (df : DataFrame Row) :
  let top := nlargest (Z.of_nat K) col df in
  let ge (a b : label * Row) := key_geb (col (snd a)) (col (snd b)) = true in
  let tied (v r : label * Row) := same_key (col (snd v)) (col (snd r)) in
  List.length top = Nat.min K (List.length df) /\
  (exists rest, Permutation (top ++ rest) df /\
                forall a b, In a top -> In b rest -> ge a b) /\
  StronglySorted ge top /\
  (forall v, exists later, filter (tied v) df = filter (tied v) top ++ later) /\
  ((List.length df <= K)%nat -> Permutation top df) /\
  rows_flagged 1 Examples.T4 Examples.A4 = Ok [(1, Examples.t50); (3, Examples.t90)] /\
  nlargest 1 transaction_amount [(1, Examples.t50); (3, Examples.t90)] =
  [(3, Examples.t90)].
Proof.
  intros top ge tied.
  set (geb := fun a b : label * Row => key_geb (col (snd a)) (col (snd b))).
  assert (Htot : forall a b, geb a b = true \/ geb b a = true)
    by (intros; apply key_geb_total).
  assert (Htr : forall a b c, geb a b = true -> geb b c = true -> geb a c = true)
    by (intros a b c; apply key_geb_trans).
  assert (Htop : top = firstn K (sort_desc geb df)) by apply nlargest_firstn.
  pose proof (sort_desc_sorted geb Htot Htr df) as Hsorted.
  pose proof (sort_desc_perm geb df) as Hperm.
  repeat split.
  - rewrite Htop, length_firstn, sort_desc_length. reflexivity.
  - exists (skipn K (sort_desc geb df)). split.
    + rewrite Htop, firstn_skipn. exact Hperm.
    + rewrite Htop. apply (sorted_prefix_dominates geb).
      rewrite firstn_skipn. exact Hsorted.
  - rewrite Htop. apply firstn_sorted, Hsorted.
  - intros v. exists (filter (tied v) (skipn K (sort_desc geb df))).
    rewrite Htop, <- filter_firstn_prefix.
    symmetry. apply (sort_desc_stable geb Htr v df).
  - intros Hlen. rewrite Htop, firstn_all2; [exact Hperm|].
    rewrite sort_desc_length. exact Hlen.
Qed.

Lemma nlargest_returns_the_largest_rows_witness :
  Permutation
    (nlargest 10 transaction_amount [(1, Examples.t50); (3, Examples.t90)])
    [(1, Examples.t50); (3, Examples.t90)].
Proof.
  apply (nlargest_returns_the_largest_rows transaction_amount 10
           [(1, Examples.t50); (3, Examples.t90)]).
  simpl. lia.
Defined.

(** C9: [nlargest] applied with the same K to its own result returns that
    result, the same rows in the same order. *)
Theorem nlargest_idempotent {Row : Type} (col : Row -> option Q) (n : Z)
  (df : DataFrame Row) :
  nlargest n col (nlargest n col df) = nlargest n col df.
Proof.
  pose proof (nlargest_sorted col n df) as Hsorted.
  unfold nlargest in *. destruct (n <=? 0); [reflexivity|].
  rewrite sort_desc_of_sorted by exact Hsorted.
  rewrite firstn_firstn, Nat.min_id. reflexivity.
Qed.

(** ** Categorical frequency *)

Lemma filter_filter {A} (p q : A -> bool) l :
  filter p (filter q l) = filter (fun x => q x && p x) l.
Proof.
  induction l as [|x l IH]; simpl; [reflexivity|].
  destruct (q x); simpl; [destruct (p x)|]; now rewrite IH.
Qed.

Lemma has_key_app k ks1 ks2 :
  has_key k (ks1 ++ ks2) = has_key k ks1 || has_key k ks2.
Proof. apply existsb_app. Qed.

(** The table after one more value. *)
Lemma bump_keys k t :
  map fst (bump k t) =
  if has_key k (map fst t) then map fst t else map fst t ++ [k].
Proof.
  induction t as [|[k' c] t IH]; simpl; [reflexivity|].
  destruct (String.eqb k k'); simpl; [reflexivity|].
  rewrite IH. destruct (has_key k (map fst t)); reflexivity.
Qed.

Lemma bump_count_of k k' t :
  count_of k (bump k' t) = ((if String.eqb k k' then 1 else 0) + count_of k t)%nat.
Proof.
  unfold count_of. induction t as [|[k0 c] t IH]; simpl.
  - destruct (String.eqb k k'); reflexivity.
  - destruct (String.eqb_spec k' k0) as [->|Hne]; simpl.
    + destruct (String.eqb k k0); simpl; lia.
    + destruct (String.eqb k k0); simpl; rewrite IH; lia.
Qed.

Lemma bump_sum k t : sum_counts (bump k t) = S (sum_counts t).
Proof.
  induction t as [|[k' c] t IH]; simpl; [reflexivity|].
  destruct (String.eqb k k'); simpl; [reflexivity|]. rewrite IH. lia.
Qed.

Lemma fold_bump_sum ks t :
  sum_counts (fold_left (fun t k => bump k t) ks t) =
  (List.length ks + sum_counts t)%nat.
Proof.
  revert t. induction ks as [|k ks IH]; intros t; simpl; [reflexivity|].
  rewrite IH, bump_sum. lia.
Qed.

Lemma fold_bump_count_of k ks t :
  count_of k (fold_left (fun t k => bump k t) ks t) =
  (occurrences k ks + count_of k t)%nat.
Proof.
  revert t. induction ks as [|k' ks IH]; intros t; simpl; [reflexivity|].
  rewrite IH, bump_count_of. unfold occurrences. simpl.
  destruct (String.eqb k k'); simpl; lia.
Qed.

Lemma fold_bump_keys ks t :
  map fst (fold_left (fun t k => bump k t) ks t) =
  map fst t ++
  filter (fun k => negb (has_key k (map fst t))) (first_occurrences ks).
Proof.
  revert t. induction ks as [|k ks IH]; intros t; simpl.
  - now rewrite app_nil_r.
  - rewrite IH, bump_keys. rewrite filter_filter.
    destruct (has_key k (map fst t)) eqn:E; simpl.
    + f_equal. apply filter_ext_in. intros k' _.
      destruct (String.eqb_spec k' k) as [->|Hne]; simpl; [now rewrite E|reflexivity].
    + rewrite <- app_assoc. simpl. f_equal. f_equal.
      apply filter_ext_in. intros k' _. rewrite has_key_app. simpl.
      rewrite orb_false_r, negb_orb. apply andb_comm.
Qed.

Lemma tally_keys ks : map fst (tally ks) = first_occurrences ks.
Proof.
  unfold tally. rewrite fold_bump_keys. simpl.
  induction (first_occurrences ks) as [|k l IH]; simpl; congruence.
Qed.

Lemma tally_count_of k ks : count_of k (tally ks) = occurrences k ks.
Proof. unfold tally. rewrite fold_bump_count_of. unfold count_of. simpl. lia. Qed.

Lemma tally_sum ks : sum_counts (tally ks) = List.length ks.
Proof. unfold tally. rewrite fold_bump_sum. simpl. lia. Qed.

Lemma first_occurrences_In k ks : In k (first_occurrences ks) -> In k ks.
Proof.
  induction ks as [|k' ks IH]; simpl; [tauto|].
  intros [->|H]; [now left|]. apply filter_In in H. right. apply IH, H.
Qed.

Lemma first_occurrences_NoDup ks : NoDup (first_occurrences ks).
Proof.
  induction ks as [|k ks IH]; simpl; constructor.
  - intros H. apply filter_In in H. destruct H as [_ H].
    rewrite String.eqb_refl in H. discriminate.
  - now apply NoDup_filter.
Qed.

Lemma count_of_absent k t : ~ In k (map fst t) -> count_of k t = 0%nat.
Proof.
  unfold count_of. induction t as [|[k' c] t IH]; simpl; intros H; [reflexivity|].
  destruct (String.eqb_spec k k') as [->|Hne]; [tauto|]. apply IH. tauto.
Qed.

(** A table with distinct keys is determined by its keys and its counts. *)
Lemma table_by_keys (f : string -> nat) t :
  NoDup (map fst t) ->
  (forall k, In k (map fst t) -> count_of k t = f k) ->
  t = map (fun k => (k, f k)) (map fst t).
Proof.
  induction t as [|[k c] t IH]; simpl; intros Hnd Hf; [reflexivity|].
  inversion Hnd as [|? ? Hk Hnd']; subst. f_equal.
  - f_equal. rewrite <- (Hf k (or_introl eq_refl)).
    unfold count_of. simpl. rewrite String.eqb_refl. simpl.
    fold (count_of k t). rewrite (count_of_absent k t Hk). lia.
  - apply IH; [exact Hnd'|]. intros k' Hk'. rewrite <- (Hf k' (or_intror Hk')).
    unfold count_of. simpl.
    destruct (String.eqb_spec k' k) as [->|Hne]; [contradiction|reflexivity].
Qed.

(** The hash table lists every distinct value once, in the order of first
    occurrence, with the number of its occurrences. *)
Lemma tally_spec ks :
  tally ks = map (fun k => (k, occurrences k ks)) (first_occurrences ks).
Proof.
  rewrite <- tally_keys. apply table_by_keys.
  - rewrite tally_keys. apply first_occurrences_NoDup.
  - intros k _. apply tally_count_of.
Qed.

Lemma sum_counts_perm {K} (l l' : list (K * nat)) :
  Permutation l l' -> sum_counts l = sum_counts l'.
Proof.
  induction 1; simpl; lia.
Qed.

Lemma filter_map_swap {A B} (f : A -> B) (p : B -> bool) l :
  filter p (map f l) = map f (filter (fun x => p (f x)) l).
Proof.
  induction l as [|x l IH]; simpl; [reflexivity|].
  destruct (p (f x)); simpl; now rewrite IH.
Qed.

Lemma StronglySorted_weaken {A} (P Q : A -> A -> Prop) l :
  (forall a b, P a b -> Q a b) -> StronglySorted P l -> StronglySorted Q l.
Proof.
  intros HPQ. induction 1 as [|x l Hl IH Hx]; constructor; [exact IH|].
  eapply Forall_impl; [|exact Hx]. intros b. apply HPQ.
Qed.

Lemma dropna_all_present {V} (vs : list (option V)) :
  (forall v, In v vs -> v <> None) -> List.length (dropna vs) = List.length vs.
Proof.
  induction vs as [|[v|] vs IH]; simpl; intros H.
  - reflexivity.
  - f_equal. apply IH. intros v' Hv'. apply H. now right.
  - elim (H None); [now left | reflexivity].
Qed.

(** C7 as stated fails: of two flagged rows, one without a region, the
    region counts sum to 1, not to the size 2 of the subset. *)
Lemma value_counts_leaves_out_missing :
  rows_flagged 1 Examples.T2_gap Examples.A2_all = Ok Examples.T2_gap /\
  List.length Examples.T2_gap = 2%nat /\
  fst (ResearchVisualizations.create_research_visualizations (1 # 2)
         (Examples.start Examples.T2_gap Examples.A2_all)) =
  Ok (ResearchVisualizations.mk_overview
        [(1, Examples.t_no_region); (0, Examples.t50)] [("R2"%string, 1%nat)]) /\
  sum_counts (value_counts (column region Examples.T2_gap)) = 1%nat /\
  sum_counts (value_counts (column region Examples.T2_gap)) <>
  List.length Examples.T2_gap.
Proof.
  repeat split. vm_compute. discriminate.
Qed.

(** C7, amended: [value_counts] returns one (value, count) pair for every
    distinct value that is present, with the number of its occurrences,
    sorted by count in descending order, the values of one count in the
    order of their first occurrence; [head N] keeps the first N pairs; and
    the counts of the whole sequence sum to the number of rows whose value
    is present, which is the size of the subset when no value is missing. *)
Theorem value_counts_frequencies (s : Series (option string)) (N : nat) :
  let vs := dropna (values s) in
  let counts := value_counts s in
  StronglySorted (fun a b => (snd b <= snd a)%nat) counts /\
  Permutation counts
    (map (fun k => (k, occurrences k vs)) (first_occurrences vs)) /\
  (forall c,
     map fst (filter (fun kc => (snd kc =? c)%nat) counts) =
     filter (fun k => (occurrences k vs =? c)%nat) (first_occurrences vs)) /\
  (exists rest, counts = head N counts ++ rest) /\
  List.length (head N counts) = Nat.min N (List.length counts) /\
  sum_counts counts = List.length vs /\
  ((forall v, In v (values s) -> v <> None) -> sum_counts counts = List.length s).
Proof.
  intros vs counts.
  assert (Hperm : Permutation counts (tally vs)).
  { unfold counts, value_counts. apply sort_desc_perm. }
  assert (Hsum : sum_counts counts = List.length vs).
  { rewrite (sum_counts_perm _ _ Hperm). apply tally_sum. }
  repeat split.
  - eapply StronglySorted_weaken;
      [|apply (sort_desc_sorted count_geb count_geb_total count_geb_trans)].
    intros a b H. apply Nat.leb_le. exact H.
  - rewrite <- tally_spec. exact Hperm.
  - intros c. subst counts vs. unfold value_counts.
    set (vs := dropna (values s)).
    rewrite (filter_ext (fun kc => (snd kc =? c)%nat)
               (fun kc => count_geb (EmptyString, c) kc && count_geb kc (EmptyString, c))).
    + rewrite (sort_desc_stable count_geb count_geb_trans (EmptyString, c)).
      rewrite tally_spec, filter_map_swap, map_map. simpl.
      rewrite map_id. apply filter_ext. intros k.
      unfold count_geb. simpl.
      destruct (Nat.eqb_spec (occurrences k vs) c) as [->|Hne].
      * now rewrite Nat.leb_refl.
      * destruct (Nat.leb_spec (occurrences k vs) c);
          destruct (Nat.leb_spec c (occurrences k vs));
          simpl; try reflexivity; lia.
    + intros [k n]. unfold count_geb. simpl.
      destruct (Nat.eqb_spec n c) as [->|Hne].
      * now rewrite Nat.leb_refl.
      * destruct (Nat.leb_spec n c); destruct (Nat.leb_spec c n);
          simpl; try reflexivity; lia.
  - exists (skipn N counts). unfold head. symmetry. apply firstn_skipn.
  - apply length_firstn.
  - exact Hsum.
  - intros Hall. rewrite Hsum. unfold vs.
    rewrite dropna_all_present by exact Hall. apply values_length.
Qed.

Lemma value_counts_frequencies_witness :
  sum_counts (value_counts (column region Examples.T4)) = List.length Examples.T4.
Proof.
  rewrite <- (length_map (fun lr => (fst lr, region (snd lr))) Examples.T4).
  apply (value_counts_frequencies (column region Examples.T4) 10).
  intros v Hv. simpl in Hv. intuition (subst; discriminate).
Defined.

(** ** Histogram bins *)

Lemma total_app l1 l2 : total (l1 ++ l2) = (total l1 + total l2)%nat.
Proof. induction l1 as [|a l1 IH]; simpl; [reflexivity|]. rewrite IH. lia. Qed.

Lemma nth_map_seq {A} (f : nat -> A) n i d :
  (i < n)%nat -> nth i (map f (seq 0 n)) d = f i.
Proof.
  intros Hi.
  rewrite (nth_indep _ d (f 0%nat)) by (rewrite length_map, length_seq; lia).
  rewrite map_nth, seq_nth by lia. reflexivity.
Qed.

(** Counting per bin and summing is counting per value and summing. *)
Lemma total_counts_swap {A B} (p : A -> B -> bool) (bs : list A) (xs : list B) :
  total (map (fun i => List.length (filter (p i) xs)) bs) =
  total (map (fun x => List.length (filter (fun i => p i x) bs)) xs).
Proof.
  induction xs as [|x xs IH]; simpl.
  - induction bs as [|b bs IHb]; simpl; [reflexivity | exact IHb].
  - rewrite <- IH. clear IH.
    induction bs as [|b bs IHb]; simpl; [reflexivity|].
    destruct (p b x); simpl; rewrite IHb; lia.
Qed.

Section Bins.

Import Seaborn.

Variables (lo hi : Q) (bins : nat).
Hypothesis lo_lt_hi : (lo < hi)%Q.
Hypothesis bins_pos : (0 < bins)%nat.

Let width : Q := ((hi - lo) / inject_Z (Z.of_nat bins))%Q.
Let edge (i : nat) : Q := bin_edge lo hi bins i.

Lemma bins_nonzero : ~ (inject_Z (Z.of_nat bins) == 0)%Q.
Proof.
  intros H. unfold Qeq in H. simpl in H. lia.
Qed.

Lemma width_pos : (0 < width)%Q.
Proof.
  unfold width, Qdiv. apply Qmult_lt_0_compat.
  - lra.
  - apply Qinv_lt_0_compat.
    replace 0%Q with (inject_Z 0) by reflexivity. rewrite <- Zlt_Qlt. lia.
Qed.

Lemma bin_edge_first : (edge 0 == lo)%Q.
Proof.
  unfold edge, bin_edge. destruct (Nat.eqb_spec 0 bins); [lia|].
  simpl. ring.
Qed.

Lemma bin_edge_last : edge bins = hi.
Proof. unfold edge, bin_edge. now rewrite Nat.eqb_refl. Qed.

(** All bins have the same width. *)
Lemma bin_edge_step k : (k < bins)%nat -> (edge (S k) == edge k + width)%Q.
Proof.
  intros Hk. unfold edge, bin_edge, width.
  destruct (Nat.eqb_spec k bins); [lia|].
  destruct (Nat.eqb_spec (S k) bins) as [E|E].
  - rewrite <- E. rewrite Nat2Z.inj_succ. unfold Z.succ. rewrite inject_Z_plus.
    assert (H0 : (0 <= inject_Z (Z.of_nat k))%Q).
    { replace 0%Q with (inject_Z 0) by reflexivity. rewrite <- Zle_Qle. lia. }
    field. intros H. change (inject_Z 1) with 1%Q in H. lra.
  - rewrite Nat2Z.inj_succ. unfold Z.succ. rewrite inject_Z_plus.
    change (inject_Z 1) with 1%Q. ring.
Qed.

Lemma bin_edge_mono k : (k < bins)%nat -> (edge k < edge (S k))%Q.
Proof.
  intros Hk. rewrite (bin_edge_step k Hk). pose proof width_pos. lra.
Qed.

Lemma hits_step k x :
  hits lo hi bins (S k) x =
  (hits lo hi bins k x + if in_bin lo hi bins k x then 1 else 0)%nat.
Proof.
  unfold hits. rewrite seq_S, filter_app, length_app. simpl.
  destruct (in_bin lo hi bins k x); reflexivity.
Qed.

(** Below the last bin, the bins up to [k] hold [x] once when [x] lies
    left of edge [k], and not at all otherwise. *)
Lemma hits_inner k x :
  (lo <= x)%Q -> (k < bins)%nat ->
  ((x < edge k)%Q -> hits lo hi bins k x = 1%nat) /\
  ((edge k <= x)%Q -> hits lo hi bins k x = 0%nat).
Proof.
  intros Hlo. induction k as [|k IH]; intros Hk.
  - pose proof bin_edge_first as H0. split; intros Hx; [lra | reflexivity].
  - destruct (IH ltac:(lia)) as [IH1 IH0].
    pose proof (bin_edge_mono k ltac:(lia)) as Hmono.
    rewrite hits_step. unfold in_bin. fold (edge k) (edge (S k)).
    destruct (Nat.eqb_spec (S k) bins); [lia|].
    destruct (Qle_bool (edge k) x) eqn:E1;
      destruct (Qle_bool (edge (S k)) x) eqn:E2; simpl;
      try apply Qle_bool_iff in E1; try apply Qle_bool_iff in E2;
      try (assert (~ (edge k <= x)%Q) by (rewrite <- Qle_bool_iff; congruence));
      try (assert (~ (edge (S k) <= x)%Q) by (rewrite <- Qle_bool_iff; congruence));
      split; intros Hx; try lra.
    + rewrite IH0 by lra. reflexivity.
    + rewrite IH0 by lra. reflexivity.
    + rewrite IH1 by lra. reflexivity.
Qed.

(** Every value between the outer edges is in exactly one bin. *)
Lemma hits_once x : (lo <= x <= hi)%Q -> hits lo hi bins bins x = 1%nat.
Proof.
  intros [Hlo Hhi].
  remember (Nat.pred bins) as k eqn:Ek.
  assert (Eb : S k = bins) by lia.
  assert (Hk : (k < bins)%nat) by lia.
  destruct (hits_inner k x Hlo Hk) as [H1 H0].
  replace (hits lo hi bins bins x) with (hits lo hi bins (S k) x)
    by (now rewrite Eb).
  rewrite hits_step. unfold in_bin.
  rewrite (proj2 (Nat.eqb_eq (S k) bins) Eb), Eb.
  fold (edge k) (edge bins). rewrite bin_edge_last.
  rewrite (proj2 (Qle_bool_iff x hi) Hhi), andb_true_r.
  destruct (Qle_bool (edge k) x) eqn:E1.
  - apply Qle_bool_iff in E1. rewrite H0 by exact E1. reflexivity.
  - assert (~ (edge k <= x)%Q) by (rewrite <- Qle_bool_iff; congruence).
    rewrite H1 by lra. reflexivity.
Qed.

Lemma bin_counts_length xs : List.length (bin_counts lo hi bins xs) = bins.
Proof. unfold bin_counts. now rewrite length_map, length_seq. Qed.

Lemma bin_counts_nth xs i :
  (i < bins)%nat ->
  nth i (bin_counts lo hi bins xs) 0%nat =
  List.length (filter (in_bin lo hi bins i) xs).
Proof.
  intros Hi. unfold bin_counts. now rewrite nth_map_seq.
Qed.

(** The bins partition the values between the outer edges. *)
Lemma bin_counts_total xs :
  Forall (fun x => (lo <= x <= hi)%Q) xs ->
  total (bin_counts lo hi bins xs) = List.length xs.
Proof.
  intros Hall. unfold bin_counts.
  rewrite (total_counts_swap (in_bin lo hi bins) (seq 0 bins) xs).
  induction Hall as [|x xs Hx _ IH]; simpl; [reflexivity|].
  rewrite IH. fold (hits lo hi bins bins x). now rewrite hits_once.
Qed.

End Bins.

Lemma Qminimum_least x xs : least (Seaborn.Qminimum x xs) (x :: xs).
Proof.
  unfold Seaborn.Qminimum. revert x.
  induction xs as [|y ys IH]; intros x; simpl.
  - split; [now left | repeat constructor; apply Qle_refl].
  - destruct (IH (if Qle_bool y x then y else x)) as [Hin Hall].
    inversion Hall as [|? ? Hhead Htail]; subst.
    destruct (Qle_bool y x) eqn:E.
    + apply Qle_bool_iff in E. split.
      * destruct Hin as [<-|Hin]; [right; now left | right; now right].
      * constructor; [lra|]. constructor; assumption.
    + assert (~ (y <= x)%Q) by (rewrite <- Qle_bool_iff; congruence).
      split.
      * destruct Hin as [<-|Hin]; [now left | right; now right].
      * constructor; [assumption|]. constructor; [lra | assumption].
Qed.

Lemma Qmaximum_greatest x xs : greatest (Seaborn.Qmaximum x xs) (x :: xs).
Proof.
  unfold Seaborn.Qmaximum. revert x.
  induction xs as [|y ys IH]; intros x; simpl.
  - split; [now left | repeat constructor; apply Qle_refl].
  - destruct (IH (if Qle_bool x y then y else x)) as [Hin Hall].
    inversion Hall as [|? ? Hhead Htail]; subst.
    destruct (Qle_bool x y) eqn:E.
    + apply Qle_bool_iff in E. split.
      * destruct Hin as [<-|Hin]; [right; now left | right; now right].
      * constructor; [lra|]. constructor; assumption.
    + assert (~ (x <= y)%Q) by (rewrite <- Qle_bool_iff; congruence).
      split.
      * destruct Hin as [<-|Hin]; [now left | right; now right].
      * constructor; [assumption|]. constructor; [lra | assumption].
Qed.

(** The outer edges are taken from the values that are binned. *)
Lemma outer_edges_spans x xs :
  let lo := fst (Seaborn.outer_edges x xs) in
  let hi := snd (Seaborn.outer_edges x xs) in
  spans lo hi (x :: xs) /\ (lo < hi)%Q /\
  Forall (fun y => (lo <= y <= hi)%Q) (x :: xs).
Proof.
  unfold Seaborn.outer_edges.
  pose proof (Qminimum_least x xs) as Hm.
  pose proof (Qmaximum_greatest x xs) as HM.
  set (m := Seaborn.Qminimum x xs) in *. set (M := Seaborn.Qmaximum x xs) in *.
  assert (HmM : (m <= M)%Q).
  { destruct Hm as [_ Hm], HM as [_ HM].
    inversion Hm; inversion HM; subst. lra. }
  assert (Hall : Forall (fun y => (m <= y <= M)%Q) (x :: xs)).
  { destruct Hm as [_ Hm], HM as [_ HM]. rewrite Forall_forall in *.
    intros y Hy. split; [now apply Hm | now apply HM]. }
  destruct (Qeq_bool m M) eqn:E; cbn [fst snd].
  - apply Qeq_bool_iff in E. repeat split.
    + exists m, M. repeat split; try apply Hm; try apply HM. right. auto.
    + lra.
    + eapply Forall_impl; [|exact Hall]. simpl. intros y Hy. lra.
  - assert (Hne : ~ (m == M)%Q) by (rewrite <- Qeq_bool_iff; congruence).
    assert (Hlt : (m < M)%Q).
    { destruct (Qlt_le_dec m M) as [H|H]; [exact H|]. elim Hne. lra. }
    repeat split.
    + exists m, M. repeat split; try apply Hm; try apply HM. left. auto.
    + exact Hlt.
    + exact Hall.
Qed.

Lemma histogram_total bins xs :
  (0 < bins)%nat -> total (Seaborn.histogram bins xs) = List.length xs.
Proof.
  intros Hb. destruct xs as [|x xs]; [reflexivity|].
  unfold Seaborn.histogram.
  destruct (outer_edges_spans x xs) as (_ & Hlt & Hall).
  destruct (Seaborn.outer_edges x xs) as [lo hi]. cbn [fst snd] in *.
  now apply bin_counts_total.
Qed.

Lemma histogram_length bins xs :
  xs <> [] -> List.length (Seaborn.histogram bins xs) = bins.
Proof.
  destruct xs as [|x xs]; [congruence|]. intros _.
  unfold Seaborn.histogram. destruct (Seaborn.outer_edges x xs).
  apply bin_counts_length.
Qed.

(** One bin holds every value. *)
Lemma histogram_single xs :
  xs <> [] -> Seaborn.histogram 1 xs = [List.length xs].
Proof.
  intros Hne.
  pose proof (histogram_length 1 xs Hne) as Hlen.
  pose proof (histogram_total 1 xs ltac:(lia)) as Htot.
  destruct (Seaborn.histogram 1 xs) as [|c [|c' l]]; simpl in *; try discriminate.
  f_equal. lia.
Qed.

(** ** The date column after [to_datetime] *)

Lemma to_datetime_reads_all_text parse s r :
  to_datetime parse s = Ok r ->
  forall l t, In (l, DateText t) s -> parse t <> None.
Proof.
  revert r. induction s as [|[l0 c] s IH]; simpl; intros r H l t Hin; [contradiction|].
  destruct (to_datetime1 parse c) as [c'|] eqn:E1; [|discriminate].
  destruct (to_datetime parse s) as [r'|] eqn:E2; [|discriminate].
  destruct Hin as [Heq|Hin].
  - injection Heq as -> ->. simpl in E1. destruct (parse t); [discriminate|discriminate].
  - now apply (IH r' eq_refl l t).
Qed.

Lemma to_datetime_unparseable parse s :
  (exists l t, In (l, DateText t) s /\ parse t = None) ->
  to_datetime parse s = Raise DateParseError.
Proof.
  intros (l & t & Hin & Hnone).
  destruct (to_datetime parse s) as [r|e] eqn:E.
  - elim (to_datetime_reads_all_text parse s r E l t Hin Hnone).
  - now rewrite (to_datetime_exn parse s e E).
Qed.

Lemma at_position_In {Row} (df : DataFrame Row) i r :
  at_position df i = Some r -> In r df.
Proof.
  unfold at_position. destruct (_ && _); [|discriminate]. apply nth_error_In.
Qed.

Lemma iloc_In {Row} (df : DataFrame Row) ix rows :
  iloc df ix = Ok rows -> forall r, In r rows -> In r df.
Proof.
  revert rows. induction ix as [|i ix IH]; simpl; intros rows H r Hr.
  - injection H as <-. contradiction.
  - destruct (at_position df i) as [r0|] eqn:E; [|discriminate].
    destruct (iloc df ix) as [rs|]; [|discriminate].
    injection H as <-. destruct Hr as [<-|Hr].
    + eapply at_position_In; eassumption.
    + now apply (IH rs).
Qed.

Lemma assign_transaction_date_In df s r :
  In r (assign_transaction_date df s) ->
  In (transaction_date (snd r)) (values s).
Proof.
  unfold assign_transaction_date. intros H.
  apply in_map_iff in H. destruct H as ([[l t] [l' d]] & <- & Hin). simpl.
  apply in_combine_r in Hin. unfold values. apply in_map_iff.
  now exists (l', d).
Qed.

Lemma date_numbers_length df :
  (forall r, In r df -> exists ns, transaction_date (snd r) = Timestamp ns) ->
  List.length (date_numbers df) = List.length df.
Proof.
  unfold date_numbers, values, column. rewrite length_map.
  induction df as [|[l r] df IH]; simpl; intros H; [reflexivity|].
  destruct (H (l, r) (or_introl eq_refl)) as [ns Hns]. simpl in Hns.
  rewrite Hns. simpl. f_equal. apply IH. intros r' Hr'. apply H. now right.
Qed.

Lemma total_zeros n : total (repeat 0%nat n) = 0%nat.
Proof. induction n as [|n IH]; simpl; [reflexivity | exact IH]. Qed.

(** The bars of a series that has a date are the histogram of its dates. *)
Lemma histplot_dates (s : Series date_cell) bins :
  map Seaborn.date2num (dropna (map Seaborn.datetime64 (values s))) <> [] ->
  Seaborn.histplot s bins =
  Seaborn.histogram bins
    (map Seaborn.date2num (dropna (map Seaborn.datetime64 (values s)))).
Proof.
  unfold Seaborn.histplot. destruct s as [|c s]; [intros H; now elim H|].
  destruct (map Seaborn.date2num _); [intros H; now elim H | reflexivity].
Qed.

Lemma histplot_total (s : Series date_cell) bins :
  (0 < bins)%nat ->
  total (Seaborn.histplot s bins) =
  List.length (map Seaborn.date2num (dropna (map Seaborn.datetime64 (values s)))).
Proof.
  intros Hb. unfold Seaborn.histplot. destruct s as [|c s]; [reflexivity|].
  destruct (map Seaborn.date2num _) as [|x xs] eqn:E.
  - apply total_zeros.
  - now apply histogram_total.
Qed.




(** ** Correlation *)

Lemma Qsum_app xs ys : (Qsum (xs ++ ys) == Qsum xs + Qsum ys)%Q.
Proof.
  unfold Qsum. induction xs as [|x xs IH]; simpl; [ring|]. rewrite IH. ring.
Qed.

Lemma Qlen_snoc {A} (l : list A) x : (Qlen (l ++ [x]) == Qlen l + 1)%Q.
Proof.
  unfold Qlen. rewrite length_app. simpl.
  rewrite Nat2Z.inj_add, inject_Z_plus. reflexivity.
Qed.

Lemma Qlen_nonneg {A} (l : list A) : (0 <= Qlen l)%Q.
Proof.
  unfold Qlen. replace 0%Q with (inject_Z 0) by reflexivity.
  rewrite <- Zle_Qle. lia.
Qed.

Lemma Qlen_pos {A} (l : list A) : l <> [] -> (0 < Qlen l)%Q.
Proof.
  intros H. unfold Qlen. replace 0%Q with (inject_Z 0) by reflexivity.
  rewrite <- Zlt_Qlt. destruct l; [congruence | simpl; lia].
Qed.

(** The loop skips every row in which a value of the pair is missing. *)
Lemma nancorr_sums_complete xs ys :
  nancorr_sums xs ys =
  fold_left (fun a p => nancorr_step a (Some (fst p), Some (snd p)))
    (complete_pairs xs ys) corr_acc0.
Proof.
  unfold nancorr_sums. generalize corr_acc0. revert ys.
  induction xs as [|x xs IH]; intros ys a; [reflexivity|].
  destruct ys as [|y ys]; [destruct x; reflexivity|].
  destruct x as [x|], y as [y|]; simpl; apply IH.
Qed.

Lemma Qlen_succ_nonzero {A} (l : list A) : ~ (Qlen l + 1 == 0)%Q.
Proof. pose proof (Qlen_nonneg l). lra. Qed.

Lemma moments_start : moments corr_acc0 [].
Proof. unfold moments, Qlen. simpl. repeat split; ring. Qed.

Lemma moments_step a ps x y :
  moments a ps -> moments (nancorr_step a (Some x, Some y)) (ps ++ [(x, y)]).
Proof.
  unfold moments. intros (Hn & Hmx & Hmy & Hsx & Hsy & Hc).
  pose proof (Qlen_succ_nonzero ps) as HN.
  cbn [nancorr_step nobs meanx meany ssqdx ssqdy covxy].
  rewrite !map_app, !Qsum_app, Qlen_snoc. cbn [map Qsum fold_right fst snd].
  set (N := Qlen ps) in *.
  set (Sx := Qsum (map fst ps)) in *.
  set (Sy := Qsum (map snd ps)) in *.
  set (Sxx := Qsum (map (fun p => (fst p * fst p)%Q) ps)) in *.
  set (Syy := Qsum (map (fun p => (snd p * snd p)%Q) ps)) in *.
  set (Sxy := Qsum (map (fun p => (fst p * snd p)%Q) ps)) in *.
  assert (Exx : (Sxx == ssqdx a + N * meanx a * meanx a)%Q) by (rewrite Hsx; ring).
  assert (Eyy : (Syy == ssqdy a + N * meany a * meany a)%Q) by (rewrite Hsy; ring).
  assert (Exy : (Sxy == covxy a + N * meanx a * meany a)%Q) by (rewrite Hc; ring).
  rewrite Exx, Eyy, Exy, <- Hmx, <- Hmy, Hn.
  repeat split; field; exact HN.
Qed.

(** After the loop over a list of complete rows. *)
Lemma moments_fold ps :
  moments (fold_left (fun a p => nancorr_step a (Some (fst p), Some (snd p)))
             ps corr_acc0) ps.
Proof.
  induction ps as [|[x y] ps IH] using rev_ind.
  - apply moments_start.
  - rewrite fold_left_app. simpl. now apply moments_step.
Qed.

Lemma Qlen_cons {A} (x : A) l : (Qlen (x :: l) == Qlen l + 1)%Q.
Proof.
  unfold Qlen. cbn [List.length]. rewrite Nat2Z.inj_succ. unfold Z.succ.
  rewrite inject_Z_plus. reflexivity.
Qed.

Lemma Qlen_map {A B} (f : A -> B) l : Qlen (map f l) = Qlen l.
Proof. unfold Qlen. now rewrite length_map. Qed.

(** Deviations from any two points, by the raw moments. *)
Lemma deviations_by_moments (ps : list (Q * Q)) (a b : Q) :
  (Qsum (map (fun p => (fst p - a) * (snd p - b)) ps) ==
   Qsum (map (fun p => fst p * snd p) ps)
   - a * Qsum (map snd ps) - b * Qsum (map fst ps) + Qlen ps * a * b)%Q.
Proof.
  induction ps as [|[x y] ps IH].
  - unfold Qlen. simpl. ring.
  - rewrite Qlen_cons. cbn [map Qsum fold_right fst snd].
    fold (Qsum (map (fun p => (fst p - a) * (snd p - b))%Q ps)).
    fold (Qsum (map (fun p => (fst p * snd p)%Q) ps)).
    fold (Qsum (map snd ps)). fold (Qsum (map fst ps)).
    rewrite IH. ring.
Qed.

Lemma average_times_length vs : vs <> [] -> (Qlen vs * average vs == Qsum vs)%Q.
Proof.
  intros H. unfold average. field.
  pose proof (Qlen_pos vs H). lra.
Qed.

Lemma centered_squares_by_moments vs :
  vs <> [] ->
  (centered_squares vs ==
   Qsum (map (fun v => v * v) vs) - Qlen vs * average vs * average vs)%Q.
Proof.
  intros H. unfold centered_squares.
  pose proof (deviations_by_moments (map (fun v => (v, v)) vs) (average vs) (average vs))
    as E.
  rewrite !map_map, Qlen_map in E. cbn [fst snd] in E.
  rewrite map_id in E. rewrite E.
  rewrite <- (average_times_length vs H). ring.
Qed.

Lemma centered_products_by_moments ps :
  ps <> [] ->
  (centered_products ps ==
   Qsum (map (fun p => fst p * snd p) ps)
   - Qlen ps * average (map fst ps) * average (map snd ps))%Q.
Proof.
  intros H. unfold centered_products. rewrite deviations_by_moments.
  assert (Hx : map fst ps <> []) by (destruct ps; [congruence | discriminate]).
  assert (Hy : map snd ps <> []) by (destruct ps; [congruence | discriminate]).
  rewrite <- (average_times_length _ Hx), <- (average_times_length _ Hy).
  rewrite !Qlen_map. ring.
Qed.

(** What the loop leaves: the count, the averages, and the centred sums. *)
Lemma nancorr_sums_centered xs ys :
  let ps := complete_pairs xs ys in
  let a := nancorr_sums xs ys in
  (nobs a == Qlen ps)%Q /\
  (ps <> [] ->
   (meanx a == average (map fst ps) /\ meany a == average (map snd ps) /\
    ssqdx a == centered_squares (map fst ps) /\
    ssqdy a == centered_squares (map snd ps) /\
    covxy a == centered_products ps)%Q).
Proof.
  intros ps a. unfold a. rewrite nancorr_sums_complete. fold ps.
  destruct (moments_fold ps) as (Hn & Hmx & Hmy & Hsx & Hsy & Hc).
  set (acc := fold_left _ ps corr_acc0) in *.
  split; [exact Hn|]. intros Hne.
  assert (HN : ~ (Qlen ps == 0)%Q) by (pose proof (Qlen_pos ps Hne); lra).
  assert (Hx : map fst ps <> []) by (destruct ps; [congruence | discriminate]).
  assert (Hy : map snd ps <> []) by (destruct ps; [congruence | discriminate]).
  assert (Ex : (meanx acc == average (map fst ps))%Q).
  { unfold average. rewrite <- Hmx, Qlen_map. field. exact HN. }
  assert (Ey : (meany acc == average (map snd ps))%Q).
  { unfold average. rewrite <- Hmy, Qlen_map. field. exact HN. }
  repeat split.
  - exact Ex.
  - exact Ey.
  - rewrite (centered_squares_by_moments _ Hx), map_map, Qlen_map, Hsx, Ex.
    reflexivity.
  - rewrite (centered_squares_by_moments _ Hy), map_map, Qlen_map, Hsy, Ey.
    reflexivity.
  - rewrite (centered_products_by_moments _ Hne), Hc, Ex, Ey. reflexivity.
Qed.

(** The coefficient pandas computes for a pair of columns is Pearson's
    coefficient of the rows in which both columns have a value. *)
Lemma nancorr_pair_pearson xs ys :
  nancorr_pair xs ys = pearson (complete_pairs xs ys).
Proof.
  destruct (nancorr_sums_centered xs ys) as [Hn Hc]. cbv zeta in Hn, Hc.
  unfold nancorr_pair, pearson.
  destruct (complete_pairs xs ys) as [|p ps] eqn:E.
  - assert (H0 : Qle_bool 1 (nobs (nancorr_sums xs ys)) = false).
    { destruct (Qle_bool 1 (nobs (nancorr_sums xs ys))) eqn:E1; [|reflexivity].
      apply Qle_bool_iff in E1. rewrite Hn in E1.
      change (Qlen (@nil (Q * Q))) with 0%Q in E1. lra. }
    now rewrite H0.
  - destruct (Hc ltac:(discriminate)) as (_ & _ & Hsx & Hsy & Hcov).
    assert (H1 : Qle_bool 1 (nobs (nancorr_sums xs ys)) = true).
    { apply Qle_bool_iff. rewrite Hn, Qlen_cons. pose proof (Qlen_nonneg ps). lra. }
    rewrite H1.
    assert (Hprod : (ssqdx (nancorr_sums xs ys) * ssqdy (nancorr_sums xs ys) ==
                     centered_squares (map fst (p :: ps)) *
                     centered_squares (map snd (p :: ps)))%Q)
      by (rewrite Hsx, Hsy; reflexivity).
    rewrite (Qleb_comp _ _ Hprod 0%Q 0%Q (Qeq_refl 0)).
    rewrite (Qeq_eqR _ _ Hprod), (Qeq_eqR _ _ Hcov). reflexivity.
Qed.

Lemma complete_pairs_diagonal xs :
  complete_pairs xs xs = map (fun v => (v, v)) (dropna xs).
Proof.
  induction xs as [|[x|] xs IH]; simpl; [reflexivity| |exact IH].
  now rewrite IH.
Qed.

Lemma complete_pairs_swap xs ys :
  complete_pairs ys xs = map (fun p => (snd p, fst p)) (complete_pairs xs ys).
Proof.
  revert ys. induction xs as [|x xs IH]; intros ys.
  - destruct ys as [|[y|] ys]; reflexivity.
  - destruct ys as [|y ys]; [destruct x; reflexivity|].
    destruct x as [x|], y as [y|]; simpl; rewrite IH; reflexivity.
Qed.

Lemma Qsum_ext {A} (f g : A -> Q) l :
  (forall x, (f x == g x)%Q) -> (Qsum (map f l) == Qsum (map g l))%Q.
Proof.
  intros H. unfold Qsum. induction l as [|x l IH]; simpl; [reflexivity|].
  rewrite IH, (H x). reflexivity.
Qed.

(** The coefficient does not depend on the order of the two columns. *)
Lemma pearson_swap ps : pearson (map (fun p => (snd p, fst p)) ps) = pearson ps.
Proof.
  destruct ps as [|p ps]; [reflexivity|].
  unfold pearson. set (qs := p :: ps).
  change (map (fun p => (snd p, fst p)) (p :: ps))
    with ((snd p, fst p) :: map (fun p => (snd p, fst p)) ps).
  change ((snd p, fst p) :: map (fun p => (snd p, fst p)) ps)
    with (map (fun p => (snd p, fst p)) qs).
  assert (Ef : map fst (map (fun p : Q * Q => (snd p, fst p)) qs) = map snd qs)
    by (rewrite map_map; reflexivity).
  assert (Es : map snd (map (fun p : Q * Q => (snd p, fst p)) qs) = map fst qs)
    by (rewrite map_map; reflexivity).
  assert (Ec : (centered_products (map (fun p => (snd p, fst p)) qs) ==
                centered_products qs)%Q).
  { unfold centered_products. rewrite Ef, Es, map_map. cbn [fst snd].
    apply Qsum_ext. intros x. ring. }
  rewrite Ef, Es.
  assert (Hprod : (centered_squares (map snd qs) * centered_squares (map fst qs) ==
                   centered_squares (map fst qs) * centered_squares (map snd qs))%Q)
    by ring.
  rewrite (Qleb_comp _ _ Hprod 0%Q 0%Q (Qeq_refl 0)).
  rewrite (Qeq_eqR _ _ Hprod), (Qeq_eqR _ _ Ec).
  destruct qs; reflexivity.
Qed.

Lemma Qsquare_nonneg (q : Q) : (0 <= q * q)%Q.
Proof. nra. Qed.

Lemma sum_squares_nonneg (m : Q) vs :
  (0 <= Qsum (map (fun v => (v - m) * (v - m)) vs))%Q.
Proof.
  unfold Qsum. induction vs as [|v vs IH]; simpl; [lra|].
  pose proof (Qsquare_nonneg (v - m)) as H. lra.
Qed.

Lemma square_zero (q : Q) : (q * q == 0)%Q -> (q == 0)%Q.
Proof.
  intros H. destruct (Qmult_integral _ _ H); assumption.
Qed.

Lemma sum_squares_zero (m : Q) vs :
  (Qsum (map (fun v => (v - m) * (v - m)) vs) == 0)%Q <->
  Forall (fun v => (v == m)%Q) vs.
Proof.
  induction vs as [|v vs IH]; cbn [map Qsum fold_right].
  - split; [constructor | reflexivity].
  - fold (Qsum (map (fun v => (v - m) * (v - m))%Q vs)).
    pose proof (sum_squares_nonneg m vs) as Hrest.
    pose proof (Qsquare_nonneg (v - m)) as Hv.
    split.
    + intros H.
      assert (H1 : ((v - m) * (v - m) == 0)%Q) by lra.
      assert (H2 : (Qsum (map (fun v => (v - m) * (v - m)) vs) == 0)%Q) by lra.
      constructor; [apply square_zero in H1; lra | now apply IH].
    + intros H. inversion H as [|? ? Hv0 Hvs]; subst.
      apply IH in Hvs. rewrite Hvs, Hv0. ring.
Qed.

Lemma all_equal_average vs :
  all_equal vs -> Forall (fun v => (v == average vs)%Q) vs.
Proof.
  intros H. destruct vs as [|c vs]; [constructor|].
  assert (Hsum : forall l, Forall (fun v => (v == c)%Q) l ->
                           (Qsum l == Qlen l * c)%Q).
  { induction 1 as [|v l Hv _ IH].
    - unfold Qlen. simpl. ring.
    - rewrite Qlen_cons. cbn [Qsum fold_right]. fold (Qsum l). rewrite IH, Hv. ring. }
  assert (Hall : Forall (fun v => (v == c)%Q) (c :: vs)).
  { apply Forall_forall. intros v Hv. apply H; [exact Hv | now left]. }
  assert (Havg : (average (c :: vs) == c)%Q).
  { unfold average. rewrite (Hsum _ Hall). field.
    pose proof (Qlen_pos (c :: vs) ltac:(discriminate)). lra. }
  eapply Forall_impl; [|exact Hall]. simpl. intros v Hv. rewrite Havg. exact Hv.
Qed.

Lemma centered_squares_zero vs : (centered_squares vs == 0)%Q <-> all_equal vs.
Proof.
  unfold centered_squares. rewrite sum_squares_zero. split.
  - intros H a b Ha Hb. rewrite Forall_forall in H.
    rewrite (H a Ha), (H b Hb). reflexivity.
  - apply all_equal_average.
Qed.

Lemma varies_not_all_equal vs : varies vs -> ~ all_equal vs.
Proof. intros (a & b & Ha & Hb & Hab) H. apply Hab. now apply H. Qed.

Lemma Q2R_pos q : (0 < q)%Q -> (0 < Q2R q)%R.
Proof.
  intros H. apply Qlt_Rlt in H.
  replace (Q2R 0) with 0%R in H by (unfold Q2R; simpl; Lra.lra).
  exact H.
Qed.

(** A column against itself: 1 when its values vary, NaN when they are all
    equal or there is none. *)
Lemma pearson_diagonal vs :
  (varies vs -> pearson (map (fun v => (v, v)) vs) = Some 1%R) /\
  (all_equal vs -> pearson (map (fun v => (v, v)) vs) = NaN).
Proof.
  assert (Ef : map fst (map (fun v : Q => (v, v)) vs) = vs)
    by (rewrite map_map; apply map_id).
  assert (Es : map snd (map (fun v : Q => (v, v)) vs) = vs)
    by (rewrite map_map; apply map_id).
  assert (Ec : centered_products (map (fun v => (v, v)) vs) = centered_squares vs).
  { unfold centered_products, centered_squares. rewrite Ef, Es, map_map. reflexivity. }
  pose proof (sum_squares_nonneg (average vs) vs) as Hnn.
  fold (centered_squares vs) in Hnn.
  unfold pearson. rewrite Ef, Es, Ec. split.
  - intros Hv.
    assert (Hne : ~ (centered_squares vs == 0)%Q).
    { rewrite centered_squares_zero. now apply varies_not_all_equal. }
    assert (Hpos : (0 < centered_squares vs)%Q).
    { destruct (Qlt_le_dec 0 (centered_squares vs)) as [H|H]; [exact H|].
      elim Hne. lra. }
    destruct Hv as (a & _ & Ha & _).
    destruct vs as [|v vs]; [contradiction|]. cbn [map].
    set (s := centered_squares (v :: vs)) in *.
    assert (Hprod : Qle_bool (s * s) 0 = false).
    { destruct (Qle_bool (s * s) 0) eqn:E; [|reflexivity].
      apply Qle_bool_iff in E.
      pose proof (Qmult_lt_0_compat s s Hpos Hpos). lra. }
    rewrite Hprod. f_equal. rewrite Q2R_mult.
    pose proof (Q2R_pos s Hpos) as HR.
    rewrite sqrt_square by Lra.lra. field. Lra.lra.
  - intros He. apply centered_squares_zero in He.
    destruct vs as [|v vs]; [reflexivity|]. cbn [map].
    set (s := centered_squares (v :: vs)) in *.
    assert (Hprod : Qle_bool (s * s) 0 = true).
    { apply Qle_bool_iff. rewrite He. lra. }
    now rewrite Hprod.
Qed.

Lemma corr_entry_at cols i j :
  (i < List.length cols)%nat -> (j < List.length cols)%nat ->
  entry (corr cols) i j = corr_entry cols i j.
Proof.
  intros Hi Hj. unfold entry, corr.
  rewrite (nth_map_seq _ _ i [] Hi). now rewrite nth_map_seq.
Qed.

Lemma corr_entry_pearson cols i j :
  corr_entry cols i j = pearson (complete_pairs (nth i cols []) (nth j cols [])).
Proof.
  unfold corr_entry. rewrite nancorr_pair_pearson.
  destruct (Nat.le_gt_cases i j) as [H|H].
  - rewrite Nat.max_r, Nat.min_l by lia.
    rewrite complete_pairs_swap. apply pearson_swap.
  - rewrite Nat.max_l, Nat.min_r by lia. reflexivity.
Qed.


Lemma complete_pairs_of_complete ps :
  complete_pairs (map (fun p => Some (fst p)) ps) (map (fun p => Some (snd p)) ps) =
  ps.
Proof.
  induction ps as [|[x y] ps IH]; simpl; [reflexivity|]. now rewrite IH.
Qed.

(** The coefficient of a pair of columns is the coefficient of the rows in
    which both have a value. *)
Lemma nancorr_pair_complete xs ys :
  nancorr_pair xs ys =
  nancorr_pair (map (fun p => Some (fst p)) (complete_pairs xs ys))
               (map (fun p => Some (snd p)) (complete_pairs xs ys)).
Proof.
  unfold nancorr_pair.
  rewrite (nancorr_sums_complete xs ys).
  rewrite (nancorr_sums_complete (map _ _) (map _ _)).
  rewrite complete_pairs_of_complete. reflexivity.
Qed.

Lemma corr_entry_symmetric cols i j : corr_entry cols i j = corr_entry cols j i.
Proof.
  unfold corr_entry. now rewrite Nat.max_comm, Nat.min_comm.
Qed.



(** * Further properties of the two files *)

(** ** The selection *)

Lemma iloc_length {Row} (df : DataFrame Row) ix rows :
  iloc df ix = Ok rows -> List.length rows = List.length ix.
Proof.
  revert rows. induction ix as [|i ix IH]; simpl; intros rows H.
  - now injection H as <-.
  - destruct (at_position df i); [|discriminate].
    destruct (iloc df ix) as [rs|]; [|discriminate].
    injection H as <-. simpl. f_equal. now apply IH.
Qed.

(** X1: whenever the selection returns, it returns one row for every row of
    the anomaly table with the flag, and every row it returns is a row of
    the transaction table. *)
Theorem rows_flagged_one_row_per_flag v (T : DataFrame TransactionRecord)
  (A : DataFrame AnomalyResult) rows :
  rows_flagged v T A = Ok rows ->
  List.length rows = List.length (where_ (fun a => is_anomaly a =? v) A) /\
  (forall r, In r rows -> In r T).
Proof.
  unfold rows_flagged. intros H. split.
  - rewrite (iloc_length _ _ _ H). unfold index. apply length_map.
  - exact (iloc_In _ _ _ H).
Qed.

Lemma rows_flagged_one_row_per_flag_witness :
  List.length [(1, Examples.t50); (3, Examples.t90)] =
  List.length (where_ (fun a => is_anomaly a =? 1) Examples.A4).
Proof.
  apply (rows_flagged_one_row_per_flag 1 Examples.T4 Examples.A4).
  reflexivity.
Defined.

(** ** The report *)

(** X2: [print_summary_statistics] resets both indexes before it reads
    them, so what it prints and whether it raises depend on the rows of the
    two tables only, not on their index labels. *)
Theorem print_summary_statistics_ignores_labels s1 s2 :
  values (merged_df s1) = values (merged_df s2) ->
  values (anomaly_df s1) = values (anomaly_df s2) ->
  stdout s1 = stdout s2 ->
  fst (ResearchVisualizations.print_summary_statistics s1) =
  fst (ResearchVisualizations.print_summary_statistics s2) /\
  stdout (snd (ResearchVisualizations.print_summary_statistics s1)) =
  stdout (snd (ResearchVisualizations.print_summary_statistics s2)).
Proof.
  intros HT HA Hout.
  unfold ResearchVisualizations.print_summary_statistics. unfold_py.
  cbn [merged_df anomaly_df stdout].
  rewrite !reset_index_frame, HT, HA.
  split_calls; cbn [fst snd stdout]; rewrite ?Hout; split; reflexivity.
Qed.

Lemma print_summary_statistics_ignores_labels_witness :
  fst (ResearchVisualizations.print_summary_statistics
         (Examples.start Examples.T2 Examples.A2_sorted)) =
  fst (ResearchVisualizations.print_summary_statistics
         (Examples.start Examples.T2 (reset_index Examples.A2_sorted))).
Proof.
  apply (print_summary_statistics_ignores_labels
           (Examples.start Examples.T2 Examples.A2_sorted)
           (Examples.start Examples.T2 (reset_index Examples.A2_sorted)));
    reflexivity.
Defined.

Lemma where_length {Row} (p : Row -> bool) (df : DataFrame Row) :
  0 <= len (where_ p df) <= len df.
Proof.
  unfold len, where_. split; [lia|]. apply inj_le.
  induction df as [|r df IH]; simpl; [lia|].
  destruct (p (snd r)); simpl; lia.
Qed.

Lemma percent_range d n p :
  0 <= d <= n -> percent d n = Ok p -> (0 <= p <= 100)%Q.
Proof.
  intros [Hd Hn]. unfold percent.
  destruct (Z.eqb_spec n 0) as [|Hne]; [discriminate|].
  intros H. injection H as <-.
  assert (Hb : (0 < inject_Z n)%Q).
  { replace 0%Q with (inject_Z 0) by reflexivity. rewrite <- Zlt_Qlt. lia. }
  assert (Ha : (0 <= inject_Z d)%Q).
  { replace 0%Q with (inject_Z 0) by reflexivity. rewrite <- Zle_Qle. lia. }
  assert (Hab : (inject_Z d <= inject_Z n)%Q) by (rewrite <- Zle_Qle; lia).
  assert (H0 : (0 <= inject_Z d / inject_Z n)%Q).
  { apply Qle_shift_div_l; [exact Hb|]. lra. }
  assert (H1 : (inject_Z d / inject_Z n <= 1)%Q).
  { apply Qle_shift_div_r; [exact Hb|]. lra. }
  change (inject_Z 100) with 100%Q.
  set (x := (inject_Z d / inject_Z n)%Q) in *. lra.
Qed.

Ltac new_output H :=
  cbn [fst snd stdout] in H; repeat rewrite <- app_assoc in H;
  first [ apply app_inv_head in H
        | rewrite <- app_nil_r in H at 1; apply app_inv_head in H ].

(** X3: a percentage the report prints lies between 0 and 100. *)
Theorem reported_percentage_in_range s out p :
  stdout (snd (ResearchVisualizations.print_summary_statistics s)) =
  stdout s ++ out ->
  In (PercentFlagged p) out ->
  (0 <= p <= 100)%Q.
Proof.
  unfold ResearchVisualizations.print_summary_statistics. unfold_py.
  cbn [merged_df anomaly_df stdout].
  split_calls; intros H Hin; new_output H; subst out; simpl in Hin;
    repeat match goal with
           | Hin : _ \/ _ |- _ => destruct Hin as [Hin|Hin]
           end;
    try discriminate; try contradiction;
    injection Hin as <-;
    match goal with
    | E : percent _ _ = Ok _ |- _ =>
        apply (percent_range _ _ _ (where_length _ _) E)
    end.
Qed.

Lemma reported_percentage_in_range_witness : (0 <= 400 # 4 <= 100)%Q.
Proof.
  apply (reported_percentage_in_range
           (Examples.start Examples.T4 Examples.A4_all)
           [ Heading "Summary Statistics of Detected Anomalies:";
             TotalAnomalies 4; PercentFlagged (400 # 4);
             Heading "Top 5 regions with most anomalies:";
             RegionCounts [("R1"%string, 2%nat); ("R2"%string, 2%nat)];
             AverageAmount 1 (Some (180 # 4)); AverageAmount 0 None ]).
  - reflexivity.
  - simpl. tauto.
Defined.

(** X4: the functions that only read leave the caller's store as it was,
    whether they return or raise; the report changes nothing but standard
    output, to which it only appends. *)
Theorem reading_functions_keep_the_frames threshold s :
  snd (ResearchVisualizations.create_research_visualizations threshold s) = s /\
  snd (ResearchVisualizations.create_mcc_analysis s) = s /\
  snd (ResearchVisualizations.create_correlation_analysis s) = s /\
  snd (VisualizationCode.create_heatmap_visualization s) = s /\
  snd (ResearchVisualizations.create_boxplot_analysis s) = s /\
  snd (VisualizationCode.create_boxplot_analysis s) = s /\
  merged_df (snd (ResearchVisualizations.print_summary_statistics s)) = merged_df s /\
  anomaly_df (snd (ResearchVisualizations.print_summary_statistics s)) = anomaly_df s /\
  exists out,
    stdout (snd (ResearchVisualizations.print_summary_statistics s)) = stdout s ++ out.
Proof.
  split; [apply create_research_visualizations_frame|].
  split; [apply create_mcc_analysis_frame|].
  split; [reflexivity|]. split; [reflexivity|].
  split; [reflexivity|]. split; [reflexivity|].
  split; [apply print_summary_statistics_frame|].
  split; [apply print_summary_statistics_frame|].
  unfold ResearchVisualizations.print_summary_statistics. unfold_py.
  cbn [merged_df anomaly_df stdout].
  split_calls; cbn [fst snd stdout]; repeat rewrite <- app_assoc;
    first [ eexists; reflexivity | exists []; now rewrite app_nil_r ].
Qed.

(** ** The date conversion *)

Lemma to_datetime_length parse s r :
  to_datetime parse s = Ok r -> List.length r = List.length s.
Proof.
  intros H. destruct (to_datetime_cells parse s r H) as [Hix _].
  unfold index in Hix. rewrite <- (length_map fst r), Hix. apply length_map.
Qed.

Lemma assign_transaction_date_length df s :
  List.length s = List.length df ->
  List.length (assign_transaction_date df s) = List.length df.
Proof.
  intros H. unfold assign_transaction_date.
  rewrite length_map, length_combine, H. apply Nat.min_id.
Qed.

Lemma column_length {Row V} (col : Row -> V) (df : DataFrame Row) :
  List.length (column col df) = List.length df.
Proof. apply length_map. Qed.

(** Writing the column a frame already has changes nothing. *)
Lemma assign_own_dates df :
  assign_transaction_date df (column transaction_date df) = df.
Proof.
  unfold assign_transaction_date, column.
  induction df as [|[l r] df IH]; simpl; [reflexivity|].
  rewrite IH. destruct r; reflexivity.
Qed.

(** The date column after the assignment is the series assigned. *)
Lemma column_of_assigned df s :
  index s = index df ->
  column transaction_date (assign_transaction_date df s) = s.
Proof.
  unfold assign_transaction_date, column, index.
  revert s. induction df as [|[l r] df IH]; intros [|[l' d] s] H;
    simpl in *; try discriminate; [reflexivity|].
  injection H as -> H. now rewrite IH.
Qed.

(** Converting a column without text changes nothing. *)
Lemma to_datetime_converted parse s :
  Forall (fun c => match c with DateText _ => False | _ => True end) (values s) ->
  to_datetime parse s = Ok s.
Proof.
  induction s as [|[l c] s IH]; simpl; intros H; [reflexivity|].
  inversion H as [|? ? Hc Hs]; subst.
  destruct c as [t| |]; [contradiction| |]; simpl; now rewrite IH.
Qed.

(** X5: when every date converts but a flagged label is no position,
    [create_temporal_analysis] raises IndexError after it has written the
    converted dates: the error leaves the caller's transaction table
    changed wherever a date was text. *)
Theorem create_temporal_analysis_fails_after_the_write parse s dates :
  to_datetime parse (column transaction_date (merged_df s)) = Ok dates ->
  Exists (fun l => ~ in_bounds (merged_df s) l) (flagged_labels 1 (anomaly_df s)) ->
  ResearchVisualizations.create_temporal_analysis parse s =
  (Raise IndexError,
   mk_store (assign_transaction_date (merged_df s) dates) (anomaly_df s) (stdout s)) /\
  ((exists l t, In (l, DateText t) (column transaction_date (merged_df s))) ->
   assign_transaction_date (merged_df s) dates <> merged_df s).
Proof.
  intros Hdates Hout. split.
  - unfold ResearchVisualizations.create_temporal_analysis. unfold_py.
    rewrite Hdates. cbn [merged_df anomaly_df stdout].
    assert (Hraise : rows_flagged 1 (assign_transaction_date (merged_df s) dates)
                       (anomaly_df s) = Raise IndexError).
    { apply rows_flagged_IndexError.
      eapply Exists_impl; [|exact Hout]. intros l Hl. unfold in_bounds, len in *.
      rewrite assign_transaction_date_length; [exact Hl|].
      rewrite (to_datetime_length _ _ _ Hdates). apply column_length. }
    now rewrite Hraise.
  - intros (l & t & Hin) Heq.
    destruct (to_datetime_cells parse _ _ Hdates) as [_ Hcells].
    rewrite Forall_forall in Hcells.
    unfold column in Hin. apply in_map_iff in Hin.
    destruct Hin as ([l0 r] & E & Hr). simpl in E. injection E as -> Et.
    rewrite <- Heq in Hr. apply assign_transaction_date_In in Hr. simpl in Hr.
    specialize (Hcells _ Hr). now rewrite Et in Hcells.
Qed.

Lemma create_temporal_analysis_fails_after_the_write_witness :
  fst (ResearchVisualizations.create_temporal_analysis IsoDate.parse
         (Examples.start Examples.T2 [(5, Examples.score 1)])) =
  Raise IndexError.
Proof.
  edestruct (create_temporal_analysis_fails_after_the_write IsoDate.parse
               (Examples.start Examples.T2 [(5, Examples.score 1)])) as [H _].
  - reflexivity.
  - constructor. unfold in_bounds. vm_compute. intros [_ H]. discriminate.
  - rewrite H. reflexivity.
Defined.

Lemma column_index {Row V} (col : Row -> V) (df : DataFrame Row) :
  index (column col df) = index df.
Proof. unfold index, column. rewrite map_map. reflexivity. Qed.

(** X6: a second run of [create_temporal_analysis] finds the dates already
    converted: it returns the same histogram and leaves the store as the
    first run left it. *)
Theorem create_temporal_analysis_twice parse s h s' :
  ResearchVisualizations.create_temporal_analysis parse s = (Ok h, s') ->
  ResearchVisualizations.create_temporal_analysis parse s' = (Ok h, s').
Proof.
  unfold ResearchVisualizations.create_temporal_analysis. unfold_py.
  destruct (to_datetime parse (column transaction_date (merged_df s)))
    as [dates|] eqn:Hdates; [|discriminate].
  cbn [merged_df anomaly_df stdout].
  destruct (rows_flagged 1 (assign_transaction_date (merged_df s) dates) (anomaly_df s))
    as [flagged|] eqn:Hflagged; [|discriminate].
  intros H. injection H as <- <-. cbn [merged_df anomaly_df stdout].
  destruct (to_datetime_cells parse _ _ Hdates) as [Hix Hcells].
  rewrite column_index in Hix.
  rewrite (column_of_assigned _ _ Hix).
  rewrite (to_datetime_converted parse dates Hcells).
  cbn [merged_df anomaly_df stdout].
  pose proof (assign_own_dates (assign_transaction_date (merged_df s) dates)) as Hfix.
  rewrite (column_of_assigned _ _ Hix) in Hfix.
  rewrite Hfix, Hflagged. reflexivity.
Qed.

Lemma create_temporal_analysis_twice_witness :
  fst (ResearchVisualizations.create_temporal_analysis IsoDate.parse
         (snd (ResearchVisualizations.create_temporal_analysis IsoDate.parse
                 (Examples.start Examples.T4 Examples.A4)))) =
  Ok ([1] ++ repeat 0 28 ++ [1])%nat.
Proof.
  erewrite (create_temporal_analysis_twice IsoDate.parse
              (Examples.start Examples.T4 Examples.A4)); reflexivity.
Defined.

(** ** The one function of visualization_code.py *)

Lemma nth_error_Forall2 {A} (R : A -> A -> Prop) l l' :
  Forall2 R l l' ->
  forall n, match nth_error l n, nth_error l' n with
            | Some a, Some b => R a b
            | None, None => True
            | _, _ => False
            end.
Proof.
  induction 1 as [|a b l l' Hab _ IH]; intros [|n]; simpl; auto.
  apply IH.
Qed.

Lemma at_position_Forall2 {Row} (R : label * Row -> label * Row -> Prop) df df' i :
  Forall2 R df df' ->
  match at_position df i, at_position df' i with
  | Some a, Some b => R a b
  | None, None => True
  | _, _ => False
  end.
Proof.
  intros H. unfold at_position, len. rewrite <- (Forall2_length H).
  destruct (_ && _); [|exact I]. apply nth_error_Forall2, H.
Qed.

(** Selecting by position from two frames related row by row gives results
    related row by row, or the same error. *)
Lemma iloc_Forall2 {Row} (R : label * Row -> label * Row -> Prop) df df' ix :
  Forall2 R df df' -> agree (Forall2 R) (iloc df ix) (iloc df' ix).
Proof.
  intros H. induction ix as [|i ix IH]; simpl; [constructor|].
  pose proof (at_position_Forall2 R df df' i H) as Hi.
  destruct (at_position df i), (at_position df' i); try contradiction;
    [|reflexivity].
  destruct (iloc df ix), (iloc df' ix); simpl in *; try contradiction.
  - now constructor.
  - exact IH.
Qed.

Lemma assign_same_but_date df s :
  List.length s = List.length df ->
  Forall2 same_but_date df (assign_transaction_date df s).
Proof.
  unfold assign_transaction_date. revert s.
  induction df as [|[l r] df IH]; intros [|[l' d] s] H; simpl in *;
    try discriminate; constructor.
  - split; [reflexivity|]. destruct r; reflexivity.
  - apply IH. lia.
Qed.

(** A column that is not the date is the same in both. *)
Lemma column_same_but_date {V} (col : TransactionRecord -> V) rows rows' :
  (forall r d, col (with_transaction_date r d) = col r) ->
  Forall2 same_but_date rows rows' ->
  column col rows = column col rows'.
Proof.
  intros Hcol. induction 1 as [|[l r] [l' r'] rows rows' [Hl Hr] _ IH]; simpl;
    [reflexivity|].
  simpl in Hl, Hr. subst l'. rewrite IH. f_equal. f_equal.
  rewrite <- (Hcol r NaT), <- (Hcol r' NaT), Hr. reflexivity.
Qed.

(** X7: when the one function of visualization_code.py returns, its four
    charts hold what the functions of research_visualizations.py draw from
    the same input: the top anomalies and the region counts of
    [create_research_visualizations], the histogram of
    [create_temporal_analysis], which also leaves the same transaction
    table behind, and the merchant categories of [create_mcc_analysis]. *)
Theorem one_function_draws_the_same_charts parse threshold s charts s' :
  VisualizationCode.create_research_visualizations parse threshold s =
  (Ok charts, s') ->
  fst (ResearchVisualizations.create_research_visualizations threshold s) =
  Ok (ResearchVisualizations.mk_overview
        (VisualizationCode.top_anomalies_sorted charts)
        (VisualizationCode.region_anomalies charts)) /\
  fst (ResearchVisualizations.create_temporal_analysis parse s) =
  Ok (VisualizationCode.anomaly_dates_hist charts) /\
  merged_df (snd (ResearchVisualizations.create_temporal_analysis parse s)) =
  merged_df s' /\
  fst (ResearchVisualizations.create_mcc_analysis s) =
  Ok (VisualizationCode.mcc_anomalies charts).
Proof.
  unfold VisualizationCode.create_research_visualizations. unfold_py.
  destruct (rows_flagged 1 (merged_df s) (anomaly_df s)) as [flagged|] eqn:Hsel;
    [|discriminate].
  destruct (to_datetime parse (column transaction_date (merged_df s)))
    as [dates|] eqn:Hdates; [|discriminate].
  cbn [merged_df anomaly_df stdout].
  destruct (rows_flagged 1 (assign_transaction_date (merged_df s) dates)
              (anomaly_df s)) as [flagged'|] eqn:Hsel'; [|discriminate].
  cbn [merged_df anomaly_df stdout].
  destruct (percent _ _); [|discriminate].
  cbn [merged_df anomaly_df stdout].
  destruct (rows_flagged 0 _ _); [|discriminate].
  intros H. injection H as <- <-.
  cbn [VisualizationCode.top_anomalies_sorted VisualizationCode.region_anomalies
       VisualizationCode.anomaly_dates_hist VisualizationCode.mcc_anomalies
       merged_df].
  repeat split.
  - unfold ResearchVisualizations.create_research_visualizations. unfold_py.
    now rewrite Hsel.
  - unfold ResearchVisualizations.create_temporal_analysis. unfold_py.
    rewrite Hdates. cbn [merged_df anomaly_df stdout]. now rewrite Hsel'.
  - unfold ResearchVisualizations.create_temporal_analysis. unfold_py.
    rewrite Hdates. cbn [merged_df anomaly_df stdout]. now rewrite Hsel'.
  - unfold ResearchVisualizations.create_mcc_analysis. unfold_py.
    rewrite Hsel. cbn [fst].
    assert (Hrel : Forall2 same_but_date (merged_df s)
                     (assign_transaction_date (merged_df s) dates)).
    { apply assign_same_but_date.
      rewrite (to_datetime_length _ _ _ Hdates). apply column_length. }
    pose proof (iloc_Forall2 same_but_date _ _
                  (index (where_ (fun a => is_anomaly a =? 1) (anomaly_df s))) Hrel)
      as Hagree.
    unfold rows_flagged in Hsel, Hsel'. rewrite Hsel, Hsel' in Hagree.
    rewrite (column_same_but_date mcc_description flagged flagged');
      [reflexivity | reflexivity | exact Hagree].
Qed.

Lemma one_function_draws_the_same_charts_witness :
  fst (ResearchVisualizations.create_mcc_analysis
         (Examples.start Examples.T4 Examples.A4)) =
  Ok [("RETAIL"%string, 2%nat)].
Proof.
  assert (H : exists charts s',
             VisualizationCode.create_research_visualizations IsoDate.parse (1 # 2)
               (Examples.start Examples.T4 Examples.A4) = (Ok charts, s') /\
             VisualizationCode.mcc_anomalies charts = [("RETAIL"%string, 2%nat)]).
  { eexists _, _. split; [vm_compute; reflexivity | reflexivity]. }
  destruct H as (charts & s' & H & Hm). rewrite <- Hm.
  apply (one_function_draws_the_same_charts IsoDate.parse (1 # 2) _ charts s' H).
Defined.

(** X8: the one function of visualization_code.py selects the anomalous
    rows (line 83) and converts the dates (line 109) before it writes or
    prints anything.  So with a flagged label that is no position of the
    transaction table, or with a date that does not parse, it does not
    return, and it leaves the caller's two frames and standard output as
    they were. *)
Theorem one_function_fails_before_it_writes parse threshold s :
  let run := VisualizationCode.create_research_visualizations parse threshold s in
  (Exists (fun l => ~ in_bounds (merged_df s) l) (flagged_labels 1 (anomaly_df s)) ->
   raises (fst run) = true /\ snd run = s) /\
  ((exists l t, In (l, DateText t) (column transaction_date (merged_df s)) /\
                parse t = None) ->
   raises (fst run) = true /\ snd run = s).
Proof.
  intros run. unfold run.
  unfold VisualizationCode.create_research_visualizations. unfold_py.
  split.
  - intros Hout. apply rows_flagged_IndexError in Hout. rewrite Hout.
    split; reflexivity.
  - intros Hbad. apply to_datetime_unparseable in Hbad.
    destruct (rows_flagged 1 (merged_df s) (anomaly_df s)); [|split; reflexivity].
    rewrite Hbad. split; reflexivity.
Qed.

Lemma one_function_fails_before_it_writes_witness :
  snd (VisualizationCode.create_research_visualizations IsoDate.parse (1 # 2)
         (Examples.start Examples.T2 [(5, Examples.score 1)])) =
  Examples.start Examples.T2 [(5, Examples.score 1)] /\
  snd (VisualizationCode.create_research_visualizations IsoDate.parse (1 # 2)
         (Examples.start Examples.T2_bad Examples.A2_all)) =
  Examples.start Examples.T2_bad Examples.A2_all.
Proof.
  split.
  - apply (proj1 (one_function_fails_before_it_writes IsoDate.parse (1 # 2)
                    (Examples.start Examples.T2 [(5, Examples.score 1)]))).
    constructor. unfold in_bounds. vm_compute. intros [_ H]. discriminate.
  - apply (proj2 (one_function_fails_before_it_writes IsoDate.parse (1 # 2)
                    (Examples.start Examples.T2_bad Examples.A2_all))).
    exists 1, "no date"%string. split; [simpl; tauto | reflexivity].
Defined.

(** ** The merchant category chart *)

Lemma NoDup_firstn {A} n (l : list A) : NoDup l -> NoDup (firstn n l).
Proof.
  intros H. rewrite <- (firstn_skipn n l) in H.
  eapply NoDup_app_remove_r. exact H.
Qed.

Lemma sum_counts_firstn {K} n (l : list (K * nat)) :
  (sum_counts (firstn n l) <= sum_counts l)%nat.
Proof.
  revert n. induction l as [|kc l IH]; intros [|n]; simpl; try lia.
  specialize (IH n). lia.
Qed.

Lemma dropna_length {V} (vs : list (option V)) :
  (List.length (dropna vs) <= List.length vs)%nat.
Proof.
  induction vs as [|[v|] vs IH]; simpl; lia.
Qed.

Lemma occurrences_pos k ks : In k ks -> (1 <= occurrences k ks)%nat.
Proof.
  unfold occurrences. induction ks as [|k' ks IH]; simpl; [tauto|].
  intros [->|H].
  - rewrite String.eqb_refl. simpl. lia.
  - destruct (String.eqb k k'); simpl; [lia | now apply IH].
Qed.

(** What [value_counts] returns, whatever the series. *)
Lemma value_counts_entries (s : Series (option string)) :
  NoDup (map fst (value_counts s)) /\
  Forall (fun kc => (1 <= snd kc)%nat) (value_counts s) /\
  (sum_counts (value_counts s) <= List.length s)%nat.
Proof.
  unfold value_counts. set (vs := dropna (values s)).
  pose proof (sort_desc_perm count_geb (tally vs)) as Hperm.
  split; [|split].
  - eapply Permutation_NoDup.
    + symmetry. apply Permutation_map. exact Hperm.
    + rewrite tally_keys. apply first_occurrences_NoDup.
  - apply Forall_forall. intros kc Hin.
    apply (Permutation_in _ Hperm) in Hin.
    rewrite tally_spec in Hin. apply in_map_iff in Hin.
    destruct Hin as (k & <- & Hk). simpl.
    apply occurrences_pos. now apply first_occurrences_In.
  - rewrite (sum_counts_perm _ _ Hperm), tally_sum. unfold vs.
    etransitivity; [apply dropna_length|]. now rewrite values_length.
Qed.

(** X9: the chart of [create_mcc_analysis] holds at most 10 merchant
    categories, each once and each with a count of at least 1, in
    descending order of the counts, and the counts sum to at most the
    number of flagged rows of the anomaly table. *)
Theorem create_mcc_analysis_chart s chart :
  fst (ResearchVisualizations.create_mcc_analysis s) = Ok chart ->
  (List.length chart <= 10)%nat /\
  StronglySorted (fun a b => (snd b <= snd a)%nat) chart /\
  NoDup (map fst chart) /\
  Forall (fun kc => (1 <= snd kc)%nat) chart /\
  (sum_counts chart <= List.length (flagged_labels 1 (anomaly_df s)))%nat.
Proof.
  unfold ResearchVisualizations.create_mcc_analysis. unfold_py.
  destruct (rows_flagged 1 (merged_df s) (anomaly_df s)) as [flagged|] eqn:Hsel;
    [|discriminate].
  cbv beta iota delta [fst]. intros H.
  assert (Hchart : chart = firstn 10 (value_counts (column mcc_description flagged)))
    by (unfold head in H; congruence).
  subst chart. clear H.
  set (s0 := column mcc_description flagged).
  destruct (value_counts_entries s0) as (Hnd & Hpos & Hsum).
  split; [|split; [|split; [|split]]].
  - apply firstn_le_length.
  - eapply StronglySorted_weaken;
      [|apply (firstn_sorted count_geb), 
          (sort_desc_sorted count_geb count_geb_total count_geb_trans)].
    intros a b H. apply Nat.leb_le. exact H.
  - rewrite <- firstn_map. now apply NoDup_firstn.
  - apply Forall_forall. intros kc Hin. rewrite Forall_forall in Hpos.
    apply Hpos. eapply in_firstn. exact Hin.
  - etransitivity; [apply sum_counts_firstn|].
    etransitivity; [exact Hsum|].
    unfold s0. rewrite column_length.
    unfold rows_flagged in Hsel. rewrite (iloc_length _ _ _ Hsel). reflexivity.
Qed.

Lemma create_mcc_analysis_chart_witness :
  (sum_counts [("RETAIL"%string, 2%nat)] <=
   List.length (flagged_labels 1 Examples.A4))%nat.
Proof.
  apply (create_mcc_analysis_chart (Examples.start Examples.T4 Examples.A4)).
  reflexivity.
Defined.

(** ** The overview *)

(** X10: when [create_research_visualizations] of
    research_visualizations.py returns, the top panel holds min(10, n)
    rows, n the number of flagged rows of the anomaly table, each of them a
    row of the transaction table, and the region counts sum to at most n. *)
Theorem create_research_visualizations_panels threshold s o :
  fst (ResearchVisualizations.create_research_visualizations threshold s) = Ok o ->
  let n := List.length (flagged_labels 1 (anomaly_df s)) in
  List.length (ResearchVisualizations.top_anomalies_sorted o) = Nat.min 10 n /\
  (forall r, In r (ResearchVisualizations.top_anomalies_sorted o) ->
             In r (merged_df s)) /\
  (sum_counts (ResearchVisualizations.region_anomalies o) <= n)%nat.
Proof.
  unfold ResearchVisualizations.create_research_visualizations. unfold_py.
  destruct (rows_flagged 1 (merged_df s) (anomaly_df s)) as [flagged|e] eqn:Hsel;
    cbv beta iota delta [fst]; [|discriminate].
  intros Ho. cbv zeta.
  assert (Eo : o = ResearchVisualizations.mk_overview
                     (nlargest 10 transaction_amount flagged)
                     (value_counts (column region flagged))) by congruence.
  subst o. clear Ho.
  cbv beta iota delta [ResearchVisualizations.top_anomalies_sorted
                         ResearchVisualizations.region_anomalies].
  assert (Hn : List.length flagged =
               List.length (flagged_labels 1 (anomaly_df s))).
  { unfold rows_flagged in Hsel. exact (iloc_length _ _ _ Hsel). }
  change 10 with (Z.of_nat 10). rewrite nlargest_firstn.
  split; [|split].
  - rewrite length_firstn, sort_desc_length, Hn. reflexivity.
  - intros r Hr. apply in_firstn in Hr.
    apply (Permutation_in _ (sort_desc_perm _ _)) in Hr.
    exact (iloc_In _ _ _ Hsel r Hr).
  - destruct (value_counts_entries (column region flagged)) as (_ & _ & Hsum).
    rewrite column_length, Hn in Hsum. exact Hsum.
Qed.

Lemma create_research_visualizations_panels_witness :
  List.length [(3, Examples.t90); (1, Examples.t50)] =
  Nat.min 10 (List.length (flagged_labels 1 Examples.A4)).
Proof.
  apply (create_research_visualizations_panels (1 # 2)
           (Examples.start Examples.T4 Examples.A4)
           (ResearchVisualizations.mk_overview
              [(3, Examples.t90); (1, Examples.t50)] [("R2"%string, 2%nat)])).
  reflexivity.
Defined.

(** ** The range of a correlation coefficient *)

Lemma cross_squares {X} (f g : X -> Q) (x y : Q) l :
  (Qsum (map (fun e => (f e * y - g e * x) * (f e * y - g e * x)) l) ==
   y * y * Qsum (map (fun e => f e * f e) l)
   - 2 * x * y * Qsum (map (fun e => f e * g e) l)
   + x * x * Qsum (map (fun e => g e * g e) l))%Q.
Proof.
  unfold Qsum. induction l as [|e l IH]; simpl; [ring|]. rewrite IH. ring.
Qed.

Lemma Qsum_squares_nonneg {X} (h : X -> Q) l :
  (0 <= Qsum (map (fun e => h e * h e) l))%Q.
Proof.
  unfold Qsum. induction l as [|e l IH]; simpl; [lra|].
  pose proof (Qsquare_nonneg (h e)). lra.
Qed.

(** The inequality of Cauchy and Schwarz, for a positive sum of squares. *)
Lemma cauchy_schwarz {X} (f g : X -> Q) l :
  (0 < Qsum (map (fun e => f e * f e) l))%Q ->
  (Qsum (map (fun e => f e * g e) l) * Qsum (map (fun e => f e * g e) l) <=
   Qsum (map (fun e => f e * f e) l) * Qsum (map (fun e => g e * g e) l))%Q.
Proof.
  set (SA := Qsum (map (fun e => f e * f e)%Q l)).
  set (SB := Qsum (map (fun e => g e * g e)%Q l)).
  set (SC := Qsum (map (fun e => f e * g e)%Q l)).
  intros HA.
  pose proof (Qsum_squares_nonneg (fun e => f e * SC - g e * SA)%Q l) as H.
  cbv beta in H. rewrite (cross_squares f g SA SC l) in H.
  fold SA SB SC in H.
  assert (H' : (0 <= SA * (SA * SB - SC * SC))%Q) by (ring_simplify; ring_simplify in H; lra).
  destruct (Qlt_le_dec (SA * SB - SC * SC) 0) as [Hneg|Hpos]; [|lra].
  exfalso.
  assert (Hlt : (SA * (SA * SB - SC * SC) < 0)%Q).
  { setoid_replace (SA * (SA * SB - SC * SC))%Q
      with (- (SA * (SC * SC - SA * SB)))%Q by ring.
    assert (0 < SA * (SC * SC - SA * SB))%Q by (apply Qmult_lt_0_compat; lra).
    lra. }
  lra.
Qed.

Lemma ratio_in_range (c d : R) :
  (0 < d)%R -> (c * c <= d)%R -> (-1 <= c / sqrt d <= 1)%R.
Proof.
  intros Hd Hc.
  pose proof (sqrt_lt_R0 d Hd) as Hs.
  pose proof (sqrt_sqrt d ltac:(Lra.lra)) as Hss.
  set (sd := sqrt d) in *.
  assert (Hb : (- sd <= c <= sd)%R) by (split; Lra.nra).
  assert (Hinv : (0 < / sd)%R) by now apply Rinv_0_lt_compat.
  unfold Rdiv. split.
  - replace (-1)%R with (- sd * / sd)%R by (field; Lra.lra).
    apply Rmult_le_compat_r; Lra.lra.
  - replace 1%R with (sd * / sd)%R by (field; Lra.lra).
    apply Rmult_le_compat_r; Lra.lra.
Qed.

Lemma pearson_range ps r : pearson ps = Some r -> (-1 <= r <= 1)%R.
Proof.
  unfold pearson. destruct ps as [|p ps]; [discriminate|].
  set (qs := p :: ps).
  set (A := centered_squares (map fst qs)).
  set (B := centered_squares (map snd qs)).
  destruct (Qle_bool (A * B) 0) eqn:E; [discriminate|].
  intros H. injection H as <-.
  assert (Hpos : (0 < A * B)%Q).
  { destruct (Qlt_le_dec 0 (A * B)) as [H|H]; [exact H|].
    apply Qle_bool_iff in H. congruence. }
  assert (HA0 : (0 <= A)%Q) by apply sum_squares_nonneg.
  assert (HB0 : (0 <= B)%Q) by apply sum_squares_nonneg.
  assert (HA : (0 < A)%Q).
  { destruct (Qlt_le_dec 0 A) as [H|H]; [exact H|].
    assert (HA : (A == 0)%Q) by lra. rewrite HA in Hpos. lra. }
  set (mx := average (map fst qs)). set (my := average (map snd qs)).
  assert (EA : A = Qsum (map (fun e : Q * Q => (fst e - mx) * (fst e - mx))%Q qs)).
  { unfold A, centered_squares. now rewrite map_map. }
  assert (EB : B = Qsum (map (fun e : Q * Q => (snd e - my) * (snd e - my))%Q qs)).
  { unfold B, centered_squares. now rewrite map_map. }
  pose proof (cauchy_schwarz (fun e : Q * Q => fst e - mx)%Q
                (fun e : Q * Q => snd e - my)%Q qs) as CS.
  cbv beta in CS. rewrite <- EA, <- EB in CS. specialize (CS HA).
  fold (centered_products qs) in CS.
  apply ratio_in_range.
  - now apply Q2R_pos.
  - rewrite <- Q2R_mult. now apply Qle_Rle.
Qed.

(** X11: every entry of the correlation matrix that is a number lies
    between -1 and 1. *)
Theorem corr_entries_in_range (cols : list (list (option Q))) i j r :
  (i < List.length cols)%nat -> (j < List.length cols)%nat ->
  entry (corr cols) i j = Some r ->
  (-1 <= r <= 1)%R.
Proof.
  intros Hi Hj. rewrite corr_entry_at by assumption.
  rewrite corr_entry_pearson. apply pearson_range.
Qed.

Lemma corr_entries_in_range_witness :
  exists r, entry (corr (numerical_features Examples.T4)) 0 0 = Some r /\
            (-1 <= r <= 1)%R.
Proof.
  destruct (entry (corr (numerical_features Examples.T4)) 0 0) as [r|] eqn:E.
  - exists r. split; [reflexivity|].
    apply (corr_entries_in_range (numerical_features Examples.T4) 0 0 r);
      [simpl; lia | simpl; lia | exact E].
  - exfalso. revert E. unfold entry, corr, corr_entry, nancorr_pair.
    cbn -[sqrt Q2R Rdiv]. discriminate.
Defined.

(** ** The box plots *)

Lemma frame_from_0 {Row} (rows : list Row) : frame rows = frame_from 0 rows.
Proof. reflexivity. Qed.

Lemma frame_from_cons {Row} k (r : Row) rows :
  frame_from k (r :: rows) = (Z.of_nat k, r) :: frame_from (S k) rows.
Proof. reflexivity. Qed.

Lemma frame_from_map {Row V} (f : Row -> V) k (rows : list Row) :
  map (fun lr => (fst lr, f (snd lr))) (frame_from k rows) = frame_from k (map f rows).
Proof.
  revert k. induction rows as [|r rows IH]; intros k; [reflexivity|].
  rewrite frame_from_cons. simpl map. rewrite frame_from_cons, IH. reflexivity.
Qed.

Lemma frame_from_index {Row} k (rows : list Row) :
  index (frame_from k rows) = map Z.of_nat (seq k (List.length rows)).
Proof.
  revert k. induction rows as [|r rows IH]; intros k; [reflexivity|].
  rewrite frame_from_cons. simpl. f_equal. apply IH.
Qed.

Lemma labels_eqb_eq xs ys : labels_eqb xs ys = true <-> xs = ys.
Proof.
  revert ys. induction xs as [|x xs IH]; intros [|y ys]; simpl;
    try (split; [discriminate | discriminate]); [tauto|].
  rewrite andb_true_iff, Z.eqb_eq, IH. split.
  - intros [-> ->]. reflexivity.
  - intros H. injection H as -> ->. auto.
Qed.

Lemma existsb_label l ls : existsb (Z.eqb l) ls = true <-> In l ls.
Proof.
  rewrite existsb_exists. split.
  - intros (x & Hx & E). apply Z.eqb_eq in E. now subst.
  - intros H. exists l. split; [exact H | apply Z.eqb_refl].
Qed.

Lemma is_unique_NoDup ls : is_unique ls = true <-> NoDup ls.
Proof.
  induction ls as [|l ls IH]; simpl.
  - split; [constructor | reflexivity].
  - rewrite andb_true_iff, negb_true_iff, IH. split.
    + intros [Hl Hls]. constructor; [|exact Hls].
      intros Hin. apply existsb_label in Hin. congruence.
    + intros H. inversion H as [|? ? Hl Hls]; subst. split; [|exact Hls].
      destruct (existsb (Z.eqb l) ls) eqn:E; [|reflexivity].
      apply existsb_label in E. contradiction.
Qed.

Lemma range_NoDup k n : NoDup (map Z.of_nat (seq k n)).
Proof.
  apply Finite.Injective_map_NoDup; [|apply seq_NoDup].
  intros a b H. now apply Nat2Z.inj.
Qed.

(** Under a label below the labels of a series there is no value. *)
Lemma at_label_below {V} (l : label) k (vs : list V) :
  l < Z.of_nat k -> at_label l (frame_from k vs) = None.
Proof.
  unfold at_label. revert k. induction vs as [|v vs IH]; intros k Hl; [reflexivity|].
  rewrite frame_from_cons. simpl.
  destruct (Z.eqb_spec (Z.of_nat k) l); [lia|]. apply IH. lia.
Qed.

(** Reindexing a series with labels from [k] on to a frame with labels from
    [k] on pairs the values by position. *)
Lemma reindex_by_position ts :
  forall k fs (s : Series Z),
    (forall l, Z.of_nat k <= l ->
               at_label l s = at_label l (frame_from k (map is_anomaly fs))) ->
    map (fun lr => (fst lr, mk_plot_row (transaction_amount (snd lr))
                              (at_label (fst lr) s)))
        (frame_from k ts) =
    frame_from k (pad_flags ts fs).
Proof.
  induction ts as [|t ts IH]; intros k fs s Hs; [reflexivity|].
  rewrite frame_from_cons. simpl map.
  rewrite (Hs (Z.of_nat k)) by lia.
  destruct fs as [|f fs]; simpl pad_flags; rewrite frame_from_cons.
  - f_equal. apply (IH (S k) [] s). intros l Hl. rewrite Hs by lia. reflexivity.
  - simpl map. rewrite frame_from_cons. unfold at_label at 1. simpl.
    rewrite Z.eqb_refl. simpl. f_equal.
    apply (IH (S k) fs s). intros l Hl. rewrite Hs by lia.
    simpl map. rewrite frame_from_cons. unfold at_label. simpl.
    destruct (Z.eqb_spec (Z.of_nat k) l); [lia|]. reflexivity.
Qed.

(** With as many scores as transactions the values are taken in order. *)
Lemma zip_by_position ts :
  forall k fs,
    List.length fs = List.length ts ->
    map (fun p => (fst (fst p),
                   mk_plot_row (transaction_amount (snd (fst p))) (Some (snd (snd p)))))
        (combine (frame_from k ts) (frame_from k (map is_anomaly fs))) =
    frame_from k (pad_flags ts fs).
Proof.
  induction ts as [|t ts IH]; intros k [|f fs] H; simpl in H; try discriminate;
    [reflexivity|].
  change (map is_anomaly (f :: fs)) with (is_anomaly f :: map is_anomaly fs).
  change (pad_flags (t :: ts) (f :: fs))
    with (mk_plot_row (transaction_amount t) (Some (is_anomaly f)) :: pad_flags ts fs).
  rewrite !frame_from_cons. simpl. f_equal.
  apply IH. lia.
Qed.

Lemma range_eq k m n :
  map Z.of_nat (seq k m) = map Z.of_nat (seq k n) -> m = n.
Proof.
  intros H. apply (f_equal (@List.length Z)) in H.
  now rewrite !length_map, !length_seq in H.
Qed.

(** X12: lines 169 to 173 of research_visualizations.py, which build the
    frame of the box plot: once both indexes are reset, the assignment of
    the flags raises nothing and pairs by position.  The frame holds the
    transactions in row order under the labels 0, 1, ..., each with the
    flag of the score at the same position, whatever index labels the two
    tables carry; transactions beyond the last score have no flag, scores
    beyond the last transaction are left out, and a transaction table
    without rows gives one row without amount per score.  What
    [sns.boxplot] does with that frame is no part of the statement. *)
Theorem boxplot_frame_pairs_by_position
    (T : DataFrame TransactionRecord) (A : DataFrame AnomalyResult) :
  setitem_is_anomaly (reset_index T) (column is_anomaly (reset_index A)) =
  Assigned (frame (paired_by_position (values T) (values A))).
Proof.
  rewrite !reset_index_frame.
  set (ts := values T). set (fs := values A).
  rewrite !frame_from_0.
  replace (column is_anomaly (frame_from 0 fs))
    with (frame_from 0 (map is_anomaly fs))
    by (symmetry; apply frame_from_map).
  unfold setitem_is_anomaly.
  destruct ts as [|t ts].
  - destruct fs as [|f fs]; [reflexivity|].
    change (frame_from 0 (@nil TransactionRecord)) with (@nil (label * TransactionRecord)).
    cbv iota. unfold paired_by_position.
    rewrite (frame_from_map (fun v => mk_plot_row None (Some v)) 0 (map is_anomaly (f :: fs))).
    now rewrite map_map.
  - set (ts' := t :: ts). unfold paired_by_position.
    change (frame_from 0 ts') with ((0, t) :: frame_from 1 ts) at 1.
    cbv iota. change ((0, t) :: frame_from 1 ts) with (frame_from 0 ts').
    rewrite !frame_from_index, length_map.
    destruct (labels_eqb _ _) eqn:E.
    + apply labels_eqb_eq, range_eq in E.
      now rewrite (zip_by_position ts' 0 fs E).
    + rewrite (proj2 (is_unique_NoDup _) (range_NoDup 0 (List.length fs))).
      now rewrite (reindex_by_position ts' 0 fs).
Qed.

Lemma default_index_reset {Row} (df : DataFrame Row) :
  default_index df -> reset_index df = df.
Proof.
  unfold default_index, reset_index. intros H. rewrite <- H.
  unfold index, values. clear H.
  induction df as [|[l r] df IH]; simpl; [reflexivity|]. now rewrite IH.
Qed.

(** X13: lines 171 and 172 of visualization_code.py, which build the frame
    of the box plot without resetting an index: the assignment of the
    flags aligns them with the transactions on the index labels.  It raises
    ValueError exactly when there are transactions, the two indexes differ
    and a label of the anomaly table is repeated.  When both tables carry
    the default index it builds the frame that lines 169 to 173 of
    research_visualizations.py build. *)
Theorem boxplot_frame_aligns_on_labels
    (T : DataFrame TransactionRecord) (A : DataFrame AnomalyResult) :
  (setitem_is_anomaly T (column is_anomaly A) = ValueError <->
   T <> [] /\ index A <> index T /\ ~ NoDup (index A)) /\
  (default_index T -> default_index A ->
   setitem_is_anomaly T (column is_anomaly A) =
   setitem_is_anomaly (reset_index T) (column is_anomaly (reset_index A))).
Proof.
  split.
  - unfold setitem_is_anomaly. rewrite column_index.
    destruct T as [|t T].
    + split; [|intros [H _]; congruence].
      destruct A; simpl; discriminate.
    + cbv iota.
      destruct (labels_eqb (index A) (index (t :: T))) eqn:E.
      * apply labels_eqb_eq in E. split; [discriminate|]. intros (_ & H & _).
        contradiction.
      * assert (Hne : index A <> index (t :: T)).
        { intros H. apply labels_eqb_eq in H. congruence. }
        destruct (is_unique (index A)) eqn:U.
        -- apply is_unique_NoDup in U. split; [discriminate|].
           intros (_ & _ & H). contradiction.
        -- split; [|reflexivity]. intros _. split; [discriminate|].
           split; [exact Hne|]. intros H. apply is_unique_NoDup in H. congruence.
  - intros HT HA.
    now rewrite (default_index_reset _ HT), (default_index_reset _ HA).
Qed.

Lemma boxplot_frame_aligns_on_labels_witness :
  setitem_is_anomaly Examples.T2
    (column is_anomaly [(0, Examples.score 1); (0, Examples.score 0)]) =
  ValueError /\
  setitem_is_anomaly Examples.T4 (column is_anomaly Examples.A4) =
  setitem_is_anomaly (reset_index Examples.T4)
    (column is_anomaly (reset_index Examples.A4)).
Proof.
  split.
  - apply (boxplot_frame_aligns_on_labels Examples.T2
             [(0, Examples.score 1); (0, Examples.score 0)]).
    split; [discriminate|]. split; [discriminate|].
    intros H. inversion H as [|? ? Hin _]; subst. apply Hin. now left.
  - apply (boxplot_frame_aligns_on_labels Examples.T4 Examples.A4);
      apply frame_default_index.
Defined.

(** ** Labels of the transaction table, and the two reports *)

Lemma Forall2_same_values {Row} (df df' : DataFrame Row) :
  Forall2 (fun a b => snd a = snd b) df df' <-> values df = values df'.
Proof.
  unfold values. split.
  - induction 1 as [|a b df df' Hab _ IH]; simpl; congruence.
  - revert df'. induction df as [|a df IH]; intros [|b df'] H; simpl in H;
      try discriminate; constructor.
    + congruence.
    + apply IH. congruence.
Qed.

(** X14: the selection reads the transaction table by position only: two
    transaction tables with the same rows under different index labels
    give the same error or the same rows. *)
Theorem rows_flagged_ignores_transaction_labels v
  (T T' : DataFrame TransactionRecord) (A : DataFrame AnomalyResult) :
  values T = values T' ->
  agree (fun rows rows' => values rows = values rows')
    (rows_flagged v T A) (rows_flagged v T' A).
Proof.
  intros H. apply Forall2_same_values in H.
  pose proof (iloc_Forall2 _ T T'
                (index (where_ (fun a => is_anomaly a =? v) A)) H) as Hagree.
  unfold rows_flagged.
  destruct (iloc T _), (iloc T' _); simpl in *; try contradiction.
  - now apply Forall2_same_values.
  - exact Hagree.
Qed.

Lemma rows_flagged_ignores_transaction_labels_witness :
  agree (fun rows rows' => values rows = values rows')
    (rows_flagged 1 Examples.T4 Examples.A4)
    (rows_flagged 1 (map (fun lr => (fst lr + 100, snd lr)) Examples.T4) Examples.A4).
Proof.
  apply (rows_flagged_ignores_transaction_labels 1 Examples.T4
           (map (fun lr => (fst lr + 100, snd lr)) Examples.T4) Examples.A4).
  reflexivity.
Defined.

(** X15: on tables with the default index, the report at the end of the one
    function of visualization_code.py prints what
    [print_summary_statistics] prints: whenever the former returns, the
    latter returns on the same input and leaves the same standard output. *)
Theorem one_function_prints_the_same_report parse threshold s charts s' :
  default_index (merged_df s) -> default_index (anomaly_df s) ->
  VisualizationCode.create_research_visualizations parse threshold s =
  (Ok charts, s') ->
  fst (ResearchVisualizations.print_summary_statistics s) = Ok tt /\
  stdout (snd (ResearchVisualizations.print_summary_statistics s)) = stdout s'.
Proof.
  intros HT HA.
  unfold VisualizationCode.create_research_visualizations. unfold_py.
  destruct (rows_flagged 1 (merged_df s) (anomaly_df s)) as [flagged|] eqn:Hsel;
    [|discriminate].
  destruct (to_datetime parse (column transaction_date (merged_df s)))
    as [dates|] eqn:Hdates; [|discriminate].
  cbn [merged_df anomaly_df stdout].
  destruct (rows_flagged 1 (assign_transaction_date (merged_df s) dates)
              (anomaly_df s)) as [flagged'|] eqn:Hsel'; [|discriminate].
  cbn [merged_df anomaly_df stdout].
  destruct (percent _ _) as [p|] eqn:Hp; [|discriminate].
  cbn [merged_df anomaly_df stdout].
  destruct (rows_flagged 0 (assign_transaction_date (merged_df s) dates)
              (anomaly_df s)) as [normal'|] eqn:Hnor'; [|discriminate].
  intros H. injection H as _ <-. cbn [stdout].
  assert (Hrel : Forall2 same_but_date (merged_df s)
                   (assign_transaction_date (merged_df s) dates)).
  { apply assign_same_but_date.
    rewrite (to_datetime_length _ _ _ Hdates). apply column_length. }
  pose proof (iloc_Forall2 same_but_date _ _
                (index (where_ (fun a => is_anomaly a =? 1) (anomaly_df s))) Hrel)
    as H1.
  pose proof (iloc_Forall2 same_but_date _ _
                (index (where_ (fun a => is_anomaly a =? 0) (anomaly_df s))) Hrel)
    as H0.
  unfold rows_flagged in Hsel, Hsel', Hnor'. rewrite Hsel, Hsel' in H1.
  rewrite Hnor' in H0.
  destruct (iloc (merged_df s)
              (index (where_ (fun a => is_anomaly a =? 0) (anomaly_df s))))
    as [normal|] eqn:Hnor; [|contradiction].
  simpl in H1, H0.
  assert (Hrun := print_summary_statistics_run s flagged normal p).
  cbv zeta in Hrun.
  rewrite (default_index_reset _ HT), (default_index_reset _ HA) in Hrun.
  rewrite (Hrun Hsel Hnor Hp). cbn [fst snd stdout].
  split; [reflexivity|].
  rewrite (column_same_but_date transaction_amount flagged flagged')
    by (reflexivity || exact H1).
  rewrite (column_same_but_date transaction_amount normal normal')
    by (reflexivity || exact H0).
  repeat rewrite <- app_assoc. reflexivity.
Qed.

Lemma one_function_prints_the_same_report_witness :
  fst (ResearchVisualizations.print_summary_statistics
         (Examples.start Examples.T4 Examples.A4)) = Ok tt.
Proof.
  assert (H : exists charts s',
             VisualizationCode.create_research_visualizations IsoDate.parse (1 # 2)
               (Examples.start Examples.T4 Examples.A4) = (Ok charts, s')).
  { eexists _, _. vm_compute. reflexivity. }
  destruct H as (charts & s' & H).
  apply (one_function_prints_the_same_report IsoDate.parse (1 # 2) _ charts s');
    [apply frame_default_index | apply frame_default_index | exact H].
Defined.
